(** * BilibiliLiveMonitor: a shallow embedding of [main.py]

    The plugin watches a list of live rooms, remembers the last status of
    each, and stores a notification for the room's group whenever the
    status changes; the notifications are handed out when a message of
    that group arrives.

    Python values are modelled as follows.
    - [str] is a list of Unicode code points ([pystr]); literals are
      written as UTF-8 text and decoded by [py].
    - [self.room_status] is an insertion-ordered dict: an association
      list with unique keys, new keys appended at the end ([Dict]).
    - [self.anchor_names] is a dict whose order is never observed: a
      [gmap].
    - The methods are state transformers [M A] over the plugin object.
    - HTTP is an oracle: the answer to the [n]-th request of the process
      is a function of [n] and of the room asked for; the requests made so
      far are recorded in [http_log], so a statement can say whether a
      method fetched.
    - [datetime] is a number of microseconds since the epoch.
      [datetime.fromtimestamp] raises for seconds outside the range of the
      platform (a year after 9999, for one): it is a partial function of
      the world.  [strftime] and [str.lower] are parameters of the world
      too, and so are the three numbers that [get_live_info] prints for a
      duration, which the source computes in floating point.
    - An exception raised inside the monitor loop leaves the plugin object
      as the statements before it have made it, and ends the [for] loop of
      that cycle ([MX], [process_results]).
    - The data of a successful live-status answer has its two fields
      [live_status] and [live_time], both integers, as the endpoint
      contract says; an answer with code 0 whose data lacks them is not
      modelled.
    - The coroutines run one after the other: the monitor loop and the
      message handler do not interleave at their [await]s. *)

From Stdlib Require Import ZArith NArith Ascii String DecimalString.
From stdpp Require Import base option list gmap.

Open Scope Z_scope.

(** ** Python strings *)

Abbreviation pystr := (list N).

Module Str.

Fixpoint utf8_decode (bs : list N) : pystr :=
  match bs with
  | [] => []
  | b :: r =>
      if (b <? 128)%N then b :: utf8_decode r
      else if (b <? 224)%N then
        match r with
        | b1 :: r1 => ((b - 192) * 64 + (b1 - 128))%N :: utf8_decode r1
        | _ => []
        end
      else if (b <? 240)%N then
        match r with
        | b1 :: b2 :: r2 =>
            ((b - 224) * 4096 + (b1 - 128) * 64 + (b2 - 128))%N :: utf8_decode r2
        | _ => []
        end
      else
        match r with
        | b1 :: b2 :: b3 :: r3 =>
            ((b - 240) * 262144 + (b1 - 128) * 4096 + (b2 - 128) * 64 + (b3 - 128))%N
              :: utf8_decode r3
        | _ => []
        end
  end.

(** The code points of a literal of the source file. *)
Definition py (s : string) : pystr :=
  utf8_decode (N_of_ascii <$> list_ascii_of_string s).

#[global] Opaque py.

Definition nl : pystr := [10%N].
Definition colon : N := 58%N.
Definition comma : N := 44%N.

(** [str.isspace] on one code point, the set [str.strip()] removes. *)
Definition is_space (c : N) : bool :=
  ((9 <=? c) && (c <=? 13) || (28 <=? c) && (c <=? 32)
   || (c =? 133) || (c =? 160) || (c =? 5760)
   || (8192 <=? c) && (c <=? 8202)
   || (c =? 8232) || (c =? 8233) || (c =? 8239) || (c =? 8287)
   || (c =? 12288))%N.

Fixpoint lstrip (s : pystr) : pystr :=
  match s with
  | [] => []
  | c :: s' => if is_space c then lstrip s' else s
  end.

Definition rstrip (s : pystr) : pystr := reverse (lstrip (reverse s)).

(** [s.strip()] *)
Definition strip (s : pystr) : pystr := rstrip (lstrip s).

(** [s.split(sep)] for a one-character separator: never empty. *)
Fixpoint split (sep : N) (s : pystr) : list pystr :=
  match s with
  | [] => [[]]
  | c :: s' =>
      if decide (c = sep) then [] :: split sep s'
      else match split sep s' with
           | tok :: toks => (c :: tok) :: toks
           | [] => [[c]]
           end
  end.

(** [s.split(sep, 1)]: cut at the first separator only. *)
Fixpoint split1 (sep : N) (s : pystr) : list pystr :=
  match s with
  | [] => [[]]
  | c :: s' =>
      if decide (c = sep) then [[]; s']
      else match split1 sep s' with
           | tok :: toks => (c :: tok) :: toks
           | [] => [[c]]
           end
  end.

(** [sep.join(parts)] *)
Fixpoint join (sep : pystr) (parts : list pystr) : pystr :=
  match parts with
  | [] => []
  | [p] => p
  | p :: ps => p ++ sep ++ join sep ps
  end.

(** [str(n)] for an integer. *)
Definition of_Z (z : Z) : pystr :=
  N_of_ascii <$> list_ascii_of_string (NilZero.string_of_int (Z.to_int z)).

(** [c * n] for a one-character string. *)
Definition times (c : N) (n : nat) : pystr := replicate n c.

End Str.

Import Str.

(** ** Configuration: [parse_room_configs] *)

Record room_config := RoomConfig {
  room_id : pystr;
  group_id : pystr
}.

#[global] Instance room_config_eq_dec : EqDecision room_config.
Proof. solve_decision. Defined.

(** One turn of the [for config in configs] loop: [rooms] is the list built
    so far.  The unpacking [room_id, group_id = config.split(':', 1)] needs
    exactly two parts; [split1_two] shows it always gets them here. *)
Definition parse_step (rooms : list room_config) (config : pystr) : list room_config :=
  if decide (colon ∈ config) then
    match split1 colon config with
    | [r; g] => rooms ++ [RoomConfig (strip r) (strip g)]
    | _ => rooms
    end
  else rooms.

Definition parse_room_configs (room_configs : pystr) : list room_config :=
  foldl parse_step [] (split comma room_configs).

(** ** The outside world *)

(** A [datetime]: microseconds since the epoch. *)
Abbreviation datetime := Z.

(** What [session.get(url)] followed by [resp.json()] and the field
    accesses of the caller can give: [Failed] for an exception on the way
    (timeout, network error, body that is not a JSON envelope), or the
    envelope with its [code] and its payload, [None] when the fields the
    caller reads under [data] are missing.  Both methods catch every
    exception themselves. *)
Inductive http_response (A : Type) :=
  | Failed
  | Json (code : Z) (payload : option A).
Arguments Failed {A}.
Arguments Json {A} code payload.

(** The [data] object of the live-status endpoint. *)
Record status_data := StatusData {
  live_status : Z;
  live_time : Z
}.

Record world := World {
  (** answer of the room-info endpoint to request number [n] *)
  room_info_api : nat -> pystr -> http_response pystr;
  (** answer of the live-status endpoint to request number [n] *)
  live_status_api : nat -> pystr -> http_response status_data;
  (** [datetime.now()] once [n] requests have been made *)
  clock : nat -> datetime;
  (** [datetime.fromtimestamp(t)] for [t] seconds: [None] when it raises *)
  fromtimestamp : Z -> option datetime;
  (** [int(hours)], [int(minutes)] and [int(seconds)] of the two [divmod]s
      of [duration.total_seconds()], for a duration in microseconds *)
  hms : Z -> Z * Z * Z;
  (** [dt.strftime('%Y-%m-%d %H:%M:%S')] *)
  strftime : datetime -> pystr;
  (** [s.lower()] *)
  lower : pystr -> pystr
}.

(** ** The state of the plugin object *)

Record notification := Notification {
  message : pystr;
  target_group : pystr
}.

#[global] Instance notification_eq_dec : EqDecision notification.
Proof. solve_decision. Defined.

(** One value of [self.room_status]; [notifications = None] is a dict
    without the key ['notifications']. *)
Record room_info := RoomInfo {
  last_status : option Z;
  live_start_time : option datetime;
  last_check_time : option datetime;
  notifications : option (list notification)
}.

Definition fresh_room_info : room_info := RoomInfo None None None None.

Definition set_last_status (v : option Z) (ri : room_info) : room_info :=
  RoomInfo v (live_start_time ri) (last_check_time ri) (notifications ri).
Definition set_live_start_time (v : option datetime) (ri : room_info) : room_info :=
  RoomInfo (last_status ri) v (last_check_time ri) (notifications ri).
Definition set_last_check_time (v : option datetime) (ri : room_info) : room_info :=
  RoomInfo (last_status ri) (live_start_time ri) v (notifications ri).
Definition set_notifications (v : option (list notification)) (ri : room_info) : room_info :=
  RoomInfo (last_status ri) (live_start_time ri) (last_check_time ri) v.

(** An insertion-ordered dict with string keys. *)
Module Dict.

Abbreviation t V := (list (pystr * V)).

Fixpoint get {V} (k : pystr) (d : t V) : option V :=
  match d with
  | [] => None
  | (k', v) :: d' => if decide (k = k') then Some v else get k d'
  end.

(** [d[k] = v]: in place for a key that is there, at the end otherwise. *)
Fixpoint set {V} (k : pystr) (v : V) (d : t V) : t V :=
  match d with
  | [] => [(k, v)]
  | (k', v') :: d' =>
      if decide (k = k') then (k, v) :: d' else (k', v') :: set k v d'
  end.

(** Mutation of the object stored under [k]. *)
Fixpoint update {V} (k : pystr) (f : V -> V) (d : t V) : t V :=
  match d with
  | [] => []
  | (k', v) :: d' =>
      if decide (k = k') then (k', f v) :: d' else (k', v) :: update k f d'
  end.

Definition keys {V} (d : t V) : list pystr := fst <$> d.

End Dict.

Inductive request :=
  | GetRoomInfo (room : pystr)
  | GetLiveStatus (room : pystr).

Record plugin := Plugin {
  monitor_rooms : list room_config;
  room_status : Dict.t room_info;
  anchor_names : gmap pystr pystr;
  (** the requests sent through [self.session] so far *)
  http_log : list request
}.

(** [__init__], for the configured [room_configs] string. *)
Definition init (room_configs : pystr) : plugin :=
  Plugin (parse_room_configs room_configs) [] ∅ [].

(** ** Methods as state transformers *)

Definition M (A : Type) : Type := plugin -> A * plugin.

Definition ret {A} (a : A) : M A := fun st => (a, st).
Definition bind {A B} (m : M A) (k : A -> M B) : M B :=
  fun st => let (a, st') := m st in k a st'.

Notation "'let*' x ':=' m 'in' k" := (bind m (fun x => k))
  (at level 10, x name, m at level 100, k at level 200).
Notation "'run' m 'then' k" := (bind m (fun _ => k))
  (at level 10, m at level 100, k at level 200).

Definition gets {A} (f : plugin -> A) : M A := fun st => (f st, st).

Definition modify_room_status (f : Dict.t room_info -> Dict.t room_info) : M unit :=
  fun st => (tt, Plugin (monitor_rooms st) (f (room_status st)) (anchor_names st) (http_log st)).

Definition modify_anchor_names (f : gmap pystr pystr -> gmap pystr pystr) : M unit :=
  fun st => (tt, Plugin (monitor_rooms st) (room_status st) (f (anchor_names st)) (http_log st)).

Definition update_room (rid : pystr) (f : room_info -> room_info) : M unit :=
  modify_room_status (Dict.update rid f).

Fixpoint mapM {A B} (f : A -> M B) (l : list A) : M (list B) :=
  match l with
  | [] => ret []
  | a :: l' => let* b := f a in let* bs := mapM f l' in ret (b :: bs)
  end.

(** A computation that may raise: the plugin object it leaves is the one
    reached when the exception went up. *)
Inductive outcome (A : Type) :=
  | Value (a : A)
  | Exception.
Arguments Value {A} a.
Arguments Exception {A}.

Definition MX (A : Type) : Type := plugin -> outcome A * plugin.

Definition retx {A} (a : A) : MX A := fun st => (Value a, st).
Definition bindx {A B} (m : MX A) (k : A -> MX B) : MX B :=
  fun st =>
    match m st with
    | (Value a, st') => k a st'
    | (Exception, st') => (Exception, st')
    end.
Definition lift {A} (m : M A) : MX A :=
  fun st => let (a, st') := m st in (Value a, st').

Notation "'let!' x ':=' m 'in' k" := (bindx m (fun x => k))
  (at level 10, x name, m at level 100, k at level 200).
Notation "'run!' m 'then' k" := (bindx m (fun _ => k))
  (at level 10, m at level 100, k at level 200).

(** What [asyncio.gather(..., return_exceptions=True)] hands back for one
    task: the exception it raised, or its return value. *)
Inductive gathered (A : Type) :=
  | Raised
  | Returned (a : A).
Arguments Raised {A}.
Arguments Returned {A} a.

(** The dict returned by [check_live_status]. *)
Record status_result := StatusResult {
  res_room_id : pystr;
  res_data : status_data;
  res_timestamp : datetime
}.

(** What the branch [elif current_status != room_info['last_status']] of
    the monitor loop has computed when it is taken. *)
Record transition := Transition {
  tr_room_id : pystr;
  became_live : bool;
  tr_anchor_name : pystr;
  tr_message : pystr
}.

(** [list.remove(x)]: drops the first element equal to [x]. *)
Fixpoint list_remove {A} `{EqDecision A} (x : A) (l : list A) : list A :=
  match l with
  | [] => []
  | y :: l' => if decide (x = y) then l' else y :: list_remove x l'
  end.

(** Truth value of a Python string. *)
Definition truthy (s : pystr) : bool := if s is [] then false else true.

Section Methods.

Context (w : world).

(** One [self.session.get]. *)
Definition http_get {A} (api : nat -> pystr -> http_response A)
    (req : request) (room : pystr) : M (http_response A) :=
  fun st =>
    (api (length (http_log st)) room,
     Plugin (monitor_rooms st) (room_status st) (anchor_names st) (http_log st ++ [req])).

(** [datetime.now()] *)
Definition now : M datetime := gets (fun st => clock w (length (http_log st))).

Definition get_anchor_info (room_id : pystr) : M pystr :=
  let* room_data := http_get (room_info_api w) (GetRoomInfo room_id) room_id in
  match room_data with
  | Json 0 (Some anchor_name) =>
      run modify_anchor_names (insert room_id anchor_name) then
      ret anchor_name
  | _ => ret (py "主播" ++ room_id)
  end.

Definition check_live_status (room_id : pystr) : M (option status_result) :=
  let* data := http_get (live_status_api w) (GetLiveStatus room_id) room_id in
  match data with
  | Json 0 (Some d) =>
      let* timestamp := now in
      ret (Some (StatusResult room_id d timestamp))
  | _ => ret None
  end.

(** The group of the first entry of [monitor_rooms] for the room: the
    [for ... break] search of the monitor loop. *)
Definition find_target_group (rid : pystr) (rooms : list room_config) : option pystr :=
  group_id <$> (snd <$> list_find (fun rc => room_id rc = rid) rooms).

(** [notifications.append] on the room's entry, creating the list first
    when the key is missing. *)
Definition append_notification (n : notification) (ri : room_info) : room_info :=
  set_notifications (Some (default [] (notifications ri) ++ [n])) ri.

(** [datetime.fromtimestamp(t)] *)
Definition datetime_fromtimestamp (t : Z) : MX datetime :=
  fun st => (if fromtimestamp w t is Some d then Value d else Exception, st).

(** The body of [for i, result in enumerate(results)]. *)
Definition loop_body (result : gathered (option status_result)) : MX (option transition) :=
  match result with
  | Raised => retx None
  | Returned None => retx None
  | Returned (Some result) =>
      let room_id := res_room_id result in
      let data := res_data result in
      let current_status := live_status data in
      run! lift (modify_room_status (fun rs =>
                   if Dict.get room_id rs is None
                   then Dict.set room_id fresh_room_info rs else rs)) then
      let! room_info := lift (gets (fun st =>
            default fresh_room_info (Dict.get room_id (room_status st)))) in
      let! event :=
        match last_status room_info with
        | None =>
            run! lift (update_room room_id (set_last_status (Some current_status))) then
            run! (if decide (current_status = 1) then
                    let! start := datetime_fromtimestamp (live_time data) in
                    lift (update_room room_id (set_live_start_time (Some start)))
                  else retx tt) then
            retx None
        | Some last =>
            if decide (current_status ≠ last) then
              let! anchor_name := lift (get_anchor_info room_id) in
              let! message :=
                if decide (current_status = 1) then
                  let! start := datetime_fromtimestamp (live_time data) in
                  run! lift (update_room room_id (set_live_start_time (Some start))) then
                  retx (anchor_name ++ py " 开播了！" ++ nl
                          ++ py "传送门：https://live.bilibili.com/" ++ room_id)
                else
                  run! lift (update_room room_id (set_live_start_time None)) then
                  retx (anchor_name ++ py " 的直播已结束。") in
              run! lift (update_room room_id (set_last_status (Some current_status))) then
              let! rooms := lift (gets monitor_rooms) in
              run! lift (match find_target_group room_id rooms with
                         | Some target_group =>
                             if truthy target_group then
                               update_room room_id
                                 (append_notification (Notification message target_group))
                             else ret tt
                         | None => ret tt
                         end) then
              retx (Some (Transition room_id (bool_decide (current_status = 1))
                            anchor_name message))
            else retx None
        end in
      run! lift (update_room room_id (set_last_check_time (Some (res_timestamp result)))) then
      retx event
  end.

(** One turn of the loop as the rest of the run sees it: the transition
    it has computed, none when it raised before, and the plugin object it
    leaves. *)
Definition process_result (result : gathered (option status_result)) : M (option transition) :=
  fun st =>
    match loop_body result st with
    | (Value event, st') => (event, st')
    | (Exception, st') => (None, st')
    end.

(** Whether the turn raises. *)
Definition raises (result : gathered (option status_result)) (st : plugin) : bool :=
  if (loop_body result st).1 is Exception then true else false.

(** The [for] loop over the gathered results, inside the [try] of the
    cycle: the first exception ends it, and [except Exception] only logs.
    The outcomes are those of the turns that ran to their end. *)
Fixpoint process_results (results : list (gathered (option status_result)))
  : M (list (option transition)) :=
  match results with
  | [] => ret []
  | result :: results' =>
      fun st =>
        match loop_body result st with
        | (Value event, st') =>
            let (events, st'') := process_results results' st' in
            (event :: events, st'')
        | (Exception, st') => ([], st')
        end
  end.

(** [asyncio.gather] over one [check_live_status] per configured entry. *)
Definition gather_status (rooms : list room_config)
  : M (list (gathered (option status_result))) :=
  mapM (fun room => let* r := check_live_status (room_id room) in ret (Returned r)) rooms.

(** One turn of [while True] in [monitor_task], up to the sleep: the
    fan-out cannot raise, [check_live_status] catches everything. *)
Definition monitor_cycle : M (list (option transition)) :=
  let* rooms := gets monitor_rooms in
  let* results := gather_status rooms in
  process_results results.

(** [monitor_task], observed for a number of cycles. *)
Fixpoint monitor_task (cycles : nat) : M (list (option transition)) :=
  match cycles with
  | O => ret []
  | S n =>
      let* evs := monitor_cycle in
      let* evs' := monitor_task n in
      ret (evs ++ evs')
  end.

Definition get_live_info (room_id : pystr) : M pystr :=
  let* result := check_live_status room_id in
  match result with
  | None => ret (py "直播间 " ++ room_id ++ py "：无法获取直播信息")
  | Some result =>
      let data := res_data result in
      let* names := gets anchor_names in
      let anchor_name := default (py "主播" ++ room_id) (names !! room_id) in
      let status_text :=
        if decide (live_status data = 1) then py "直播中" else py "未开播" in
      let info := py "主播: " ++ anchor_name ++ nl
                  ++ py "直播间ID: " ++ room_id ++ nl
                  ++ py "状态: " ++ status_text ++ nl in
      let* room_info := gets (fun st =>
            default fresh_room_info (Dict.get room_id (room_status st))) in
      let* info :=
        if decide (live_status data = 1) then
          match live_start_time room_info with
          | Some start =>
              let* t := now in
              let '(hours, minutes, seconds) := hms w (t - start) in
              ret (info ++ py "开播时间: " ++ strftime w start ++ nl
                        ++ py "直播时长: " ++ of_Z hours ++ py "小时"
                        ++ of_Z minutes ++ py "分钟"
                        ++ of_Z seconds ++ py "秒" ++ nl)
          | None => ret (info ++ py "开播时间: 未知" ++ nl)
          end
        else ret info in
      let info :=
        match last_check_time room_info with
        | Some t => info ++ py "最后检查时间: " ++ strftime w t ++ nl
        | None => info
        end in
      ret (info ++ py "直播间链接: 链接1" ++ room_id)
  end.

(** The inner loop of [on_group_message] over a copy of one room's list:
    [out] is [notifications_to_send], [cur] the list being emptied. *)
Definition drain_step (gid : pystr) (acc : list pystr * list notification)
    (n : notification) : list pystr * list notification :=
  if decide (target_group n = gid)
  then (acc.1 ++ [message n], list_remove n acc.2)
  else acc.

Definition drain_room (gid : pystr) (ns : list notification)
  : list pystr * list notification :=
  foldl (drain_step gid) ([], ns) ns.

(** The outer loop, over [self.room_status.items()] in dict order. *)
Fixpoint drain_rooms (gid : pystr) (rs : Dict.t room_info)
  : list pystr * Dict.t room_info :=
  match rs with
  | [] => ([], [])
  | (rid, ri) :: rs' =>
      let (out, ri') :=
        match notifications ri with
        | Some ns =>
            let (out, ns') := drain_room gid ns in
            (out, set_notifications (Some ns') ri)
        | None => ([], ri)
        end in
      let (outs, rs'') := drain_rooms gid rs' in
      (out ++ outs, (rid, ri') :: rs'')
  end.

Definition drain (gid : pystr) : M (list pystr) :=
  fun st =>
    let (out, rs) := drain_rooms gid (room_status st) in
    (out, Plugin (monitor_rooms st) rs (anchor_names st) (http_log st)).

(** The loop that fills [info_lines]. *)
Fixpoint collect_info (gid : pystr) (rooms : list room_config) : M (list pystr) :=
  match rooms with
  | [] => ret []
  | room_config :: rooms' =>
      if decide (group_id room_config = gid) then
        let* room_info := get_live_info (room_id room_config) in
        let* info_lines := collect_info gid rooms' in
        ret (room_info :: info_lines)
      else collect_info gid rooms'
  end.

(** An inbound group message, as the handler reads it. *)
Record group_message := GroupMessage {
  ev_group_id : pystr;
  message_str : pystr
}.

(** [on_group_message]: the texts it yields, in order. *)
Definition on_group_message (event : group_message) : M (list pystr) :=
  let gid := ev_group_id event in
  let message_str := lower w (strip (message_str event)) in
  let* notifications_to_send := drain gid in
  if decide (message_str = py "liveinfo") then
    let* rooms := gets monitor_rooms in
    let* info_lines := collect_info gid rooms in
    match info_lines with
    | [] => ret (notifications_to_send ++ [py "该群没有配置监控的直播间"])
    | _ =>
        let response := py "直播间状态" ++ nl ++ nl ++ times 61 20 ++ join nl info_lines in
        ret (notifications_to_send ++ [response])
    end
  else ret notifications_to_send.

End Methods.

(** ** A world to run the model in *)

Module Demo.

(** Characters [A]..[Z] to lower case, the rest unchanged: [str.lower] on
    ASCII text. *)
Definition ascii_lower (s : pystr) : pystr :=
  (fun c => if (65 <=? c)%N && (c <=? 90)%N then (c + 32)%N else c) <$> s.

(** [datetime.fromtimestamp] where the local time is UTC: the years 1 to
    9999. *)
Definition utc_fromtimestamp (t : Z) : option datetime :=
  if decide (-62135596800 ≤ t ≤ 253402300799) then Some (t * 1000000) else None.

(** Hours, minutes and seconds of a duration, in exact arithmetic. *)
Definition exact_hms (duration : Z) : Z * Z * Z :=
  let hours := duration / 3600000000 in
  let remainder := duration mod 3600000000 in
  let minutes := remainder / 60000000 in
  let seconds := remainder mod 60000000 in
  (hours, minutes, seconds / 1000000).

(** Every room answers [code = 0]; the status is 0 for the first
    [first_live] requests and 1 from then on; the anchor is called "up". *)
Definition goes_live (first_live : nat) : world :=
  World (fun _ _ => Json 0 (Some (py "up")))
        (fun n _ => Json 0 (Some (StatusData (if (n <? first_live)%nat then 0 else 1) 1700000000)))
        (fun n => 1700000100000000 + Z.of_nat n)
        utc_fromtimestamp exact_hms
        (fun t => of_Z t)
        ascii_lower.

(** Room ["2"] goes live at the second cycle of a two-room registry, the
    other rooms at the third: requests 0-1, 2-3 and 5-6 are the status
    requests of the three cycles, request 4 asks for an anchor name. *)
Definition staggered : world :=
  World (fun _ _ => Json 0 (Some (py "up")))
        (fun n rid =>
           let live := if decide (rid = py "2") then (2 <=? n)%nat else (5 <=? n)%nat in
           Json 0 (Some (StatusData (if live then 1 else 0) 1700000000)))
        (fun n => 1700000100000000 + Z.of_nat n)
        utc_fromtimestamp exact_hms
        (fun t => of_Z t)
        ascii_lower.

(** As [goes_live 2], but room ["2"] cannot be reached after the first
    two requests. *)
Definition flaky : world :=
  World (fun _ _ => Json 0 (Some (py "up")))
        (fun n rid =>
           if bool_decide (rid = py "2") && (2 <=? n)%nat then Failed
           else Json 0 (Some (StatusData (if (n <? 2)%nat then 0 else 1) 1700000000)))
        (fun n => 1700000100000000 + Z.of_nat n)
        utc_fromtimestamp exact_hms
        (fun t => of_Z t)
        ascii_lower.

(** Room ["1"] is live, and the endpoint gives its start time in
    milliseconds. *)
Definition milliseconds : world :=
  World (fun _ _ => Json 0 (Some (py "up")))
        (fun _ _ => Json 0 (Some (StatusData 1 1700000000000)))
        (fun n => 1700000100000000 + Z.of_nat n)
        utc_fromtimestamp exact_hms
        (fun t => of_Z t)
        ascii_lower.

(** No request is ever answered. *)
Definition unreachable : world :=
  World (fun _ _ => Failed) (fun _ _ => Failed)
        (fun n => 1700000100000000 + Z.of_nat n)
        utc_fromtimestamp exact_hms
        (fun t => of_Z t)
        ascii_lower.

End Demo.

(** * Vocabulary of the statements *)

(** [t] has no white space at either end. *)
Definition trimmed (t : pystr) : Prop :=
  (∀ c, head t = Some c → is_space c = false) ∧
  (∀ c, last t = Some c → is_space c = false).

(** [t] is [raw] without its surrounding white space. *)
Definition trim_of (raw t : pystr) : Prop :=
  ∃ l r, raw = l ++ t ++ r
         ∧ Forall (λ c, is_space c = true) l
         ∧ Forall (λ c, is_space c = true) r
         ∧ trimmed t.

(** [rc] is what the token [tok] stands for: the two sides of its first
    [':'], trimmed. *)
Definition config_of_token (tok : pystr) (rc : room_config) : Prop :=
  ∃ a b, tok = a ++ (colon :: b) ∧ (colon ∉ a)
         ∧ trim_of a (room_id rc) ∧ trim_of b (group_id rc).

(** What one token contributes to the registry. *)
Definition token_config (tok : pystr) : option room_config :=
  if decide (colon ∈ tok) then
    match split1 colon tok with
    | [r; g] => Some (RoomConfig (strip r) (strip g))
    | _ => None
    end
  else None.

(** The dict after the block that creates a missing entry. *)
Definition ensure_room (rid : pystr) (rs : Dict.t room_info) : Dict.t room_info :=
  if Dict.get rid rs is None then Dict.set rid fresh_room_info rs else rs.

(** The name carried by an answer of the room-info endpoint, when the
    answer is a success. *)
Definition fetched_name (r : http_response pystr) : option pystr :=
  match r with
  | Json 0 (Some name) => Some name
  | _ => None
  end.

(** The sample carried by an answer of the live-status endpoint. *)
Definition fetched_status (r : http_response status_data) : option status_data :=
  match r with
  | Json 0 (Some d) => Some d
  | _ => None
  end.

(** The text stored for a transition. *)
Definition transition_message (live : bool) (anchor_name rid : pystr) : pystr :=
  if live
  then anchor_name ++ py " 开播了！" ++ nl
         ++ py "传送门：https://live.bilibili.com/" ++ rid
  else anchor_name ++ py " 的直播已结束。".

(** The status stored for a room, if any. *)
Definition stored_status (rid : pystr) (st : plugin) : option Z :=
  Dict.get rid (room_status st) ≫= last_status.

(** The notifications stored on a room's entry. *)
Definition room_pending (rid : pystr) (st : plugin) : list notification :=
  default [] (Dict.get rid (room_status st) ≫= notifications).

Ltac unfold_M :=
  unfold http_get, now, update_room, modify_room_status, modify_anchor_names,
    gets, bind, ret in *;
  simpl in *.

Ltac unfold_MX :=
  unfold bindx, retx, lift, datetime_fromtimestamp in *;
  unfold_M.

(** The messages of one room's entry that are addressed to a group, in
    the order of the list. *)
Definition room_messages (gid : pystr) (ri : room_info) : list pystr :=
  message <$> filter (λ n, target_group n = gid) (default [] (notifications ri)).

(** The messages buffered for a group: room after room in dict order. *)
Definition pending_for (gid : pystr) (rs : Dict.t room_info) : list pystr :=
  concat ((λ kv, room_messages gid kv.2) <$> rs).

(** A room's entry once the messages of a group have been taken out. *)
Definition drained_info (gid : pystr) (ri : room_info) : room_info :=
  match notifications ri with
  | Some ns => set_notifications (Some (filter (λ n, target_group n ≠ gid) ns)) ri
  | None => ri
  end.

Definition drained (gid : pystr) (rs : Dict.t room_info) : Dict.t room_info :=
  (λ kv, (kv.1, drained_info gid kv.2)) <$> rs.

(** The [LiveStatus] of the specification and the mapping of a raw
    [live_status] to it: the loop and the report test [== 1]. *)
Inductive LiveStatus := Unknown | Offline | Live.

Definition mapped (raw : Z) : LiveStatus :=
  if decide (raw = 1) then Live else Offline.

Definition mapped_stored (stored : option Z) : LiveStatus :=
  from_option mapped Unknown stored.

(** A sample whose raw status is one of the two values of the endpoint
    contract. *)
Definition binary (res : status_result) : Prop :=
  live_status (res_data res) = 0 ∨ live_status (res_data res) = 1.

(** Successful samples as the loop receives them. *)
Definition as_results (samples : list status_result)
  : list (gathered (option status_result)) :=
  (λ res, Returned (Some res)) <$> samples.

(** A live sample whose start time [datetime.fromtimestamp] refuses. *)
Definition refused (w : world) (res : status_result) : Prop :=
  live_status (res_data res) = 1
  ∧ fromtimestamp w (live_time (res_data res)) = None.

#[global] Instance refused_dec w res : Decision (refused w res).
Proof. unfold refused. apply _. Defined.

(** Samples applied one turn of the loop after the other.  The turns may
    belong to any cycles: a turn that raises ends its cycle, and the next
    sample is then a turn of a later cycle. *)
Definition apply_samples (w : world) (samples : list status_result)
  : M (list (option transition)) :=
  mapM (process_result w) (as_results samples).

(** The status kept for a room, said without the loop: the status of the
    room's first sample is stored as it comes, that of a later sample is
    stored unless the sample is refused. *)
Definition track (w : world) (stored : option Z) (res : status_result) : option Z :=
  match stored with
  | Some prev => if decide (refused w res) then Some prev
                 else Some (live_status (res_data res))
  | None => Some (live_status (res_data res))
  end.

Definition tracked (w : world) (rid : pystr) (samples : list status_result)
  : option Z :=
  foldl (λ stored res, if decide (res_room_id res = rid)
                       then track w stored res else stored)
        None samples.

(** The raw status of the room's last sample. *)
Definition last_sample_status (rid : pystr) (samples : list status_result)
  : option Z :=
  last (live_status ∘ res_data <$> filter (λ res, res_room_id res = rid) samples).

(** The start time is there exactly when the stored status is live. *)
Definition start_time_iff_live (ri : room_info) : Prop :=
  is_Some (live_start_time ri) ↔ last_status ri = Some 1.

(** What can happen to the plugin object: a monitor cycle, one turn of
    the loop body on any gathered result, an inbound group message. *)
Inductive action :=
  | Cycle
  | Sample (result : gathered (option status_result))
  | Message (event : group_message).

Definition perform (w : world) (a : action) (st : plugin) : plugin :=
  match a with
  | Cycle => (monitor_cycle w st).2
  | Sample result => (process_result w result st).2
  | Message event => (on_group_message w event st).2
  end.

Definition perform_all (w : world) (acts : list action) (st : plugin) : plugin :=
  foldl (λ st a, perform w a st) st acts.

(** The state with some more requests in the log. *)
Definition logged (reqs : list request) (st : plugin) : plugin :=
  Plugin (monitor_rooms st) (room_status st) (anchor_names st) (http_log st ++ reqs).

(** Every entry of the room dict keeps the start time exactly while the
    stored status is live. *)
Definition statuses_consistent (st : plugin) : Prop :=
  ∀ rid ri, Dict.get rid (room_status st) = Some ri → start_time_iff_live ri.

(** Only entries stored as live have a start time. *)
Definition start_times_only_live (st : plugin) : Prop :=
  ∀ rid ri, Dict.get rid (room_status st) = Some ri →
    is_Some (live_start_time ri) → last_status ri = Some 1.

(** The endpoint never gives a live room a start time that
    [datetime.fromtimestamp] refuses. *)
Definition start_times_convert (w : world) : Prop :=
  ∀ n rid d, fetched_status (live_status_api w n rid) = Some d →
    live_status d = 1 → is_Some (fromtimestamp w (live_time d)).

(** The same for the result of a loop turn that is not the plugin's own. *)
Definition converts (w : world) (a : action) : Prop :=
  match a with
  | Sample (Returned (Some res)) => ¬ refused w res
  | _ => True
  end.

(** A gathered result that carries a sample. *)
Definition succeeded (r : gathered (option status_result)) : bool :=
  match r with
  | Returned (Some _) => true
  | _ => false
  end.

(** The transitions among the outcomes of a cycle. *)
Definition transitions (evs : list (option transition)) : list transition :=
  omap id evs.

(** ** Sentences of the specification that the code does not meet, as
    they are worded there *)

(** "A TransitionEvent is produced for a sample if and only if a prior
    stored status exists and the sample's mapped status differs from it",
    for the sample [res] that comes after [samples]. *)
Definition event_iff_status_differs (w : world) (room_configs : pystr)
    (samples : list status_result) (res : status_result) : Prop :=
  let st := (apply_samples w samples (init room_configs)).2 in
  let prior := mapped_stored (stored_status (res_room_id res) st) in
  is_Some (process_result w (Returned (Some res)) st).1
  ↔ prior ≠ Unknown ∧ mapped (live_status (res_data res)) ≠ prior.

(** "The resulting message is enqueued once for every RoomConfig entry in
    the registry whose room_id equals r": each such entry's group finds
    the message among its pending ones. *)
Definition every_entry_notified (w : world) (res : status_result) (st : plugin) : Prop :=
  let outcome := process_result w (Returned (Some res)) st in
  ∀ ev, outcome.1 = Some ev →
  ∀ rc, rc ∈ monitor_rooms st → room_id rc = res_room_id res →
    tr_message ev ∈ pending_for (group_id rc) (room_status outcome.2).

(** "Returns the cached name when one is present without fetching; on a
    cache miss stores the returned value, fetched name or fallback". *)
Definition resolves_through_cache (w : world) (rid : pystr) (st : plugin) : Prop :=
  let outcome := get_anchor_info w rid st in
  (∀ name, anchor_names st !! rid = Some name → outcome = (name, st))
  ∧ (anchor_names st !! rid = None → anchor_names outcome.2 !! rid = Some outcome.1).

(** The messages stored for a group by the transitions of a run, in the
    order in which the loop stored them. *)
Definition enqueued_for (gid : pystr) (rooms : list room_config)
    (evs : list (option transition)) : list pystr :=
  tr_message
    <$> filter (λ ev, find_target_group (tr_room_id ev) rooms = Some gid)
          (transitions evs).

(** "Drain returns the messages buffered for the target in FIFO enqueue
    order, including when they originate from different rooms": after
    some cycles from the start, a drain gives the messages stored for the
    group in the order they were stored. *)
Definition drains_in_enqueue_order (w : world) (room_configs : pystr)
    (cycles : nat) (gid : pystr) : Prop :=
  let outcome := monitor_task w cycles (init room_configs) in
  (drain gid outcome.2).1 = enqueued_for gid (monitor_rooms outcome.2) outcome.1.

(** "Any other inbound text [than a case-insensitive exact match for
    liveinfo] triggers only a drain". *)
Definition other_text_only_drains (w : world) (event : group_message) (st : plugin) : Prop :=
  lower w (message_str event) ≠ py "liveinfo" →
  on_group_message w event st = drain (ev_group_id event) st.

(** ** Runs of the model used as examples *)

Module Scenario.

Import Demo.

(** A successful sample of a room with the given raw status. *)
Definition sample (rid : pystr) (status : Z) : status_result :=
  StatusResult rid (StatusData status 1700000000) 1700000200000000.

(** A live sample of a room whose start time is given in milliseconds:
    the year 55841, which no [datetime] can hold. *)
Definition live_in_milliseconds (rid : pystr) : status_result :=
  StatusResult rid (StatusData 1 1700000000000) 1700000200000000.

(** Room ["1"], listed for the groups ["A"] and ["B"], after a first
    cycle that found it offline. *)
Definition listed_twice : plugin :=
  (monitor_cycle (goes_live 2) (init (py "1:A,1:B"))).2.

(** The transition computed when room ["1"] is then found live. *)
Definition room1_goes_live : transition :=
  Transition (py "1") true (py "up") (transition_message true (py "up") (py "1")).

(** Room ["1"] of group ["A"] after two cycles, live since the second. *)
Definition live_room : plugin :=
  perform_all (goes_live 1) [Cycle; Cycle] (init (py "1:A")).

(** Rooms ["1"] and ["2"] of group ["G"] after a first cycle in which
    both answered. *)
Definition two_rooms : plugin :=
  (monitor_cycle flaky (init (py "1:G,2:G"))).2.

(** An empty entry for room ["1"] and nothing else. *)
Definition one_empty_room : plugin :=
  Plugin [] [(py "1", fresh_room_info)] ∅ [].

(** The name ["old"] cached for room ["1"]. *)
Definition name_cached : plugin :=
  Plugin [] [] {[ py "1" := py "old" ]} [].

(** The text ["liveinfo"] with a space in front, sent by group ["A"]. *)
Definition padded_command : group_message :=
  GroupMessage (py "A") (py " liveinfo").

(** The three polls of room ["123"] in the scenario of the specification:
    offline, live since 1700000000, offline. *)
Definition polls : list status_result :=
  [StatusResult (py "123") (StatusData 0 0) 1;
   StatusResult (py "123") (StatusData 1 1700000000) 2;
   StatusResult (py "123") (StatusData 0 0) 3].

(** The outcome of the first [n] of them on a fresh plugin. *)
Definition polled (n : nat) : list (option transition) * plugin :=
  process_results (goes_live 0) (as_results (take n polls)) (init (py "123:G")).

End Scenario.

(** * Vocabulary of the further statements *)

(** The configuration text of a registry: the entries written
    [room_id:group_id] and joined by commas. *)
Definition render_config (rooms : list room_config) : pystr :=
  join [comma] ((λ rc, room_id rc ++ colon :: group_id rc) <$> rooms).

(** An entry that the text form can carry: nothing to trim, no [':'] in
    the room id, no [','] in either id. *)
Definition plain_entry (rc : room_config) : Prop :=
  trimmed (room_id rc) ∧ trimmed (group_id rc)
  ∧ (colon ∉ room_id rc) ∧ (comma ∉ room_id rc) ∧ (comma ∉ group_id rc).

(** An action of the plugin's own life: a monitor cycle or an inbound
    message, not a loop turn on a made-up result. *)
Definition own_action (a : action) : Prop :=
  match a with
  | Sample _ => False
  | _ => True
  end.

(** Every stored notification of a room is addressed to the group of the
    room's first registry entry, and that group is not the empty string. *)
Definition addressed_to_first_entry (st : plugin) : Prop :=
  ∀ rid ri n,
    Dict.get rid (room_status st) = Some ri →
    n ∈ default [] (notifications ri) →
    find_target_group rid (monitor_rooms st) = Some (target_group n)
    ∧ target_group n ≠ [].

(** The room-info requests that go with the transitions of a run. *)
Definition anchor_requests (evs : list (option transition)) : list request :=
  (λ ev, GetRoomInfo (tr_room_id ev)) <$> transitions evs.

(** The notifications that the transitions of a run store for a room whose
    first registry entry names the group [gid]. *)
Definition notifications_of (rid gid : pystr) (evs : list (option transition))
  : list notification :=
  (λ ev, Notification (tr_message ev) gid)
    <$> filter (λ ev, tr_room_id ev = rid) (transitions evs).

(** The raw status of the last sample of a room among gathered results. *)
Definition latest_status (rid : pystr)
    (results : list (gathered (option status_result))) : option Z :=
  last (omap (λ r, match r with
                   | Returned (Some res) =>
                       if decide (res_room_id res = rid)
                       then Some (live_status (res_data res)) else None
                   | _ => None
                   end) results).

(** No two neighbours are equal. *)
Fixpoint alternates (l : list bool) : Prop :=
  match l with
  | b1 :: (b2 :: _) as l' => b1 ≠ b2 ∧ alternates l'
  | _ => True
  end.

(** The directions of the transitions of one room in a run. *)
Definition directions (rid : pystr) (evs : list (option transition)) : list bool :=
  became_live <$> filter (λ ev, tr_room_id ev = rid) (transitions evs).

(** The cache holds only names of rooms for which a room-info request
    went out. *)
Definition cache_was_fetched (st : plugin) : Prop :=
  ∀ rid name, anchor_names st !! rid = Some name → GetRoomInfo rid ∈ http_log st.



(** ** The parser *)

Section Parser.

Implicit Types (s tok : pystr) (sep : N).

Lemma split_nonempty sep s : split sep s ≠ [].
Proof.
  destruct s as [|c s]; simpl; [done|].
  case_decide; [done|]. by destruct (split sep s).
Qed.

Lemma split_app sep s1 s2 :
  split sep (s1 ++ sep :: s2) = split sep s1 ++ split sep s2.
Proof.
  induction s1 as [|c s1 IH]; simpl.
  - by rewrite decide_True.
  - case_decide; [by rewrite IH|].
    rewrite IH. pose proof (split_nonempty sep s1).
    by destruct (split sep s1).
Qed.

Lemma split_no_sep sep s : sep ∉ s → split sep s = [s].
Proof.
  induction s as [|c s IH]; simpl; [done|].
  intros [Hc Hs]%not_elem_of_cons.
  case_decide; [congruence|]. by rewrite IH.
Qed.

Lemma join_split sep s : join [sep] (split sep s) = s.
Proof.
  induction s as [|c s IH]; simpl; [done|].
  pose proof (split_nonempty sep s) as Hne.
  case_decide as Hc.
  - subst c. destruct (split sep s) as [|t ts]; [done|].
    simpl in *. by rewrite IH.
  - destruct (split sep s) as [|t ts]; [done|].
    destruct ts; simpl in *; by rewrite <- IH.
Qed.

Lemma split_tokens_no_sep sep s : Forall (λ tok, sep ∉ tok) (split sep s).
Proof.
  induction s as [|c s IH]; simpl.
  - repeat constructor. by intros ?%elem_of_nil.
  - case_decide as Hc.
    + constructor; [by intros ?%elem_of_nil | done].
    + pose proof (split_nonempty sep s).
      destruct (split sep s) as [|t ts]; [done|].
      inversion_clear IH. constructor; [|done].
      intros [?|?]%elem_of_cons; congruence.
Qed.

Lemma split1_two sep s :
  sep ∈ s → ∃ a b, split1 sep s = [a; b] ∧ s = a ++ sep :: b ∧ sep ∉ a.
Proof.
  induction s as [|c s IH]; simpl; [by intros ?%elem_of_nil|].
  intros Hin. case_decide as Hc.
  - subst c. exists [], s. split_and!; [done..|by intros ?%elem_of_nil].
  - apply elem_of_cons in Hin as [?|Hin]; [congruence|].
    destruct (IH Hin) as (a & b & -> & -> & Ha).
    exists (c :: a), b. split_and!; [done..|].
    intros [?|?]%elem_of_cons; congruence.
Qed.

Lemma split1_first sep a b :
  sep ∉ a → split1 sep (a ++ sep :: b) = [a; b].
Proof.
  induction a as [|c a IH]; simpl; intros Ha.
  - by rewrite decide_True.
  - apply not_elem_of_cons in Ha as [? ?].
    case_decide; [congruence|]. by rewrite IH.
Qed.

Lemma lstrip_spec s :
  ∃ l, s = l ++ lstrip s ∧ Forall (λ c, is_space c = true) l
       ∧ ∀ c, head (lstrip s) = Some c → is_space c = false.
Proof.
  induction s as [|c s (l & Hs & Hl & Hh)]; simpl.
  - exists []. by split_and!.
  - destruct (is_space c) eqn:Hc.
    + exists (c :: l). split_and!; [simpl; by f_equal | by constructor | done].
    + exists []. split_and!; [done | constructor |]. simpl. congruence.
Qed.

Lemma rstrip_spec s :
  ∃ r, s = rstrip s ++ r ∧ Forall (λ c, is_space c = true) r
       ∧ ∀ c, last (rstrip s) = Some c → is_space c = false.
Proof.
  destruct (lstrip_spec (reverse s)) as (l & Hs & Hl & Hh).
  exists (reverse l). unfold rstrip. split_and!.
  - rewrite <- reverse_app, <- Hs. by rewrite reverse_involutive.
  - by apply Forall_reverse.
  - intros c. rewrite last_reverse. apply Hh.
Qed.

Lemma strip_trim_of s : trim_of s (strip s).
Proof.
  destruct (lstrip_spec s) as (l & Hs & Hl & Hh).
  destruct (rstrip_spec (lstrip s)) as (r & Hs' & Hr & Hla).
  exists l, r. unfold strip. split_and!; [congruence | done | done |].
  split; [|done]. intros c Hc. apply Hh.
  rewrite Hs'. destruct (rstrip (lstrip s)); [done|]. done.
Qed.


Lemma foldl_parse_step rooms toks :
  foldl parse_step rooms toks = rooms ++ omap token_config toks.
Proof.
  revert rooms. induction toks as [|tok toks IH]; intros rooms; simpl.
  - by rewrite app_nil_r.
  - rewrite IH. unfold parse_step, token_config.
    case_decide as Hc; [|done].
    destruct (split1_two _ _ Hc) as (a & b & -> & _ & _).
    by rewrite <- app_assoc.
Qed.

Lemma parse_room_configs_app s1 s2 :
  parse_room_configs (s1 ++ comma :: s2)
  = parse_room_configs s1 ++ parse_room_configs s2.
Proof.
  unfold parse_room_configs.
  rewrite split_app, !foldl_parse_step, omap_app. done.
Qed.

Lemma token_config_spec toks :
  Forall2 config_of_token (filter (λ tok, colon ∈ tok) toks) (omap token_config toks).
Proof.
  induction toks as [|tok toks IH]; simpl; [constructor|].
  rewrite filter_cons. unfold token_config at 1.
  case_decide as Hc; [|done].
  destruct (split1_two _ _ Hc) as (a & b & -> & Htok & Ha).
  constructor; [|done].
  exists a, b. simpl. split_and!; [done..| |]; apply strip_trim_of.
Qed.

End Parser.

(** C7. For every configuration string: its comma-separated tokens are
    the pieces between the commas; the registry has exactly one entry per
    token that contains [':'], in the order of the tokens, each made of
    the two sides of the token's first [':'] without their surrounding
    white space; tokens without [':'] contribute nothing; the empty string
    gives the empty registry. *)
Theorem parse_room_configs_tokens (room_configs : pystr) :
  let tokens := split comma room_configs in
  join [comma] tokens = room_configs
  ∧ Forall (λ tok, comma ∉ tok) tokens
  ∧ Forall2 config_of_token (filter (λ tok, colon ∈ tok) tokens)
            (parse_room_configs room_configs)
  ∧ length (parse_room_configs room_configs)
    = length (filter (λ tok, colon ∈ tok) tokens)
  ∧ parse_room_configs [] = [].
Proof.
  intros tokens. unfold parse_room_configs. rewrite foldl_parse_step. simpl.
  pose proof (token_config_spec tokens) as HF.
  split_and!; [apply join_split | apply split_tokens_no_sep | done | | done].
  symmetry. by eapply Forall2_length.
Qed.

(** C10. A token is cut at its first [':'] only: when [a] has no [':'],
    the token [a:b] adds the entry with room [a] and group [b], both
    trimmed, whatever further [':'] there are in [b]; written alone as the
    configuration it gives exactly that entry. *)
Theorem parse_splits_at_first_colon (a b : pystr) (rooms : list room_config) :
  colon ∉ a →
  parse_step rooms (a ++ (colon :: b)) = rooms ++ [RoomConfig (strip a) (strip b)]
  ∧ (comma ∉ a ++ (colon :: b) →
     parse_room_configs (a ++ (colon :: b)) = [RoomConfig (strip a) (strip b)]).
Proof.
  intros Ha.
  assert (parse_step rooms (a ++ (colon :: b))
          = rooms ++ [RoomConfig (strip a) (strip b)]) as Hstep.
  { unfold parse_step. rewrite decide_True by set_solver.
    by rewrite split1_first. }
  split; [done|]. intros Hcomma.
  unfold parse_room_configs. rewrite split_no_sep by done. simpl.
  unfold parse_step. rewrite decide_True by set_solver.
  by rewrite split1_first.
Qed.

(** The token ["1:2:3"] gives room ["1"] and group ["2:3"]. *)
Lemma parse_splits_at_first_colon_witness :
  parse_step [] (py "1:2:3") = [RoomConfig (py "1") (py "2:3")]
  ∧ parse_room_configs (py "1:2:3") = [RoomConfig (py "1") (py "2:3")].
Proof.
  assert (colon ∉ py "1") as Ha
    by (apply (bool_decide_unpack _); vm_compute; exact I).
  destruct (parse_splits_at_first_colon (py "1") (py "2:3") [] Ha) as [H1 H2].
  split; [exact H1|].
  apply H2. apply (bool_decide_unpack _). vm_compute. exact I.
Defined.

(** ** The monitor loop *)

Section DictFacts.

Context {V : Type}.
Implicit Types (k : pystr) (d : Dict.t V).

Lemma get_set k k' (v : V) d :
  Dict.get k (Dict.set k' v d) = if decide (k = k') then Some v else Dict.get k d.
Proof.
  induction d as [|[k0 v0] d IH]; simpl.
  - by repeat case_decide.
  - repeat (case_decide; simpl; subst); try done; try congruence.
Qed.

Lemma get_update k k' (f : V → V) d :
  Dict.get k (Dict.update k' f d)
  = if decide (k = k') then f <$> Dict.get k d else Dict.get k d.
Proof.
  induction d as [|[k0 v0] d IH]; simpl.
  - by case_decide.
  - repeat (case_decide; simpl; subst); try done; try congruence.
Qed.

Lemma get_update_eq k (f : V → V) d :
  Dict.get k (Dict.update k f d) = f <$> Dict.get k d.
Proof. rewrite get_update. by rewrite decide_True. Qed.

Lemma get_update_ne k k' (f : V → V) d :
  k ≠ k' → Dict.get k (Dict.update k' f d) = Dict.get k d.
Proof. intros. rewrite get_update. by rewrite decide_False. Qed.

End DictFacts.


Lemma get_ensure_room rid rs :
  Dict.get rid (ensure_room rid rs)
  = Some (default fresh_room_info (Dict.get rid rs)).
Proof.
  unfold ensure_room. destruct (Dict.get rid rs) eqn:E; simpl; [done|].
  rewrite get_set. by rewrite decide_True.
Qed.

Lemma get_ensure_room_ne rid rid' rs :
  rid' ≠ rid → Dict.get rid' (ensure_room rid rs) = Dict.get rid' rs.
Proof.
  intros. unfold ensure_room. destruct (Dict.get rid rs); [done|].
  rewrite get_set. by rewrite decide_False.
Qed.



Section Loop.

Context (w : world).
Implicit Types (st : plugin) (res : status_result) (rid : pystr).

Lemma get_anchor_info_eq rid st :
  let reply := fetched_name (room_info_api w (length (http_log st)) rid) in
  get_anchor_info w rid st
  = (default (py "主播" ++ rid) reply,
     Plugin (monitor_rooms st) (room_status st)
       (if reply is Some name then <[rid:=name]> (anchor_names st)
        else anchor_names st)
       (http_log st ++ [GetRoomInfo rid])).
Proof.
  unfold get_anchor_info. unfold_M.
  destruct (room_info_api w (length (http_log st)) rid) as [|[|p|p] [name|]];
    done.
Qed.

Lemma check_live_status_eq rid st :
  let st' := Plugin (monitor_rooms st) (room_status st) (anchor_names st)
               (http_log st ++ [GetLiveStatus rid]) in
  check_live_status w rid st
  = ((λ d, StatusResult rid d (clock w (length (http_log st'))))
       <$> fetched_status (live_status_api w (length (http_log st)) rid),
     st').
Proof.
  unfold check_live_status. unfold_M.
  destruct (live_status_api w (length (http_log st)) rid) as [|[|p|p] [d|]];
    done.
Qed.


Lemma process_result_eq r st :
  process_result w r st
  = (if (loop_body w r st).1 is Value ev then ev else None, (loop_body w r st).2).
Proof. unfold process_result. by destruct (loop_body w r st) as [[ev|] st']. Qed.

Lemma process_results_cons r results st :
  process_results w (r :: results) st
  = if raises w r st then ([], (process_result w r st).2)
    else ((process_result w r st).1
            :: (process_results w results (process_result w r st).2).1,
          (process_results w results (process_result w r st).2).2).
Proof.
  cbn [process_results]. unfold raises, process_result.
  destruct (loop_body w r st) as [[ev|] st']; cbn [fst snd]; [|done].
  by destruct (process_results w results st').
Qed.

Lemma process_result_failed st :
  (process_result w Raised st = (None, st) ∧ raises w Raised st = false)
  ∧ (process_result w (Returned None) st = (None, st)
     ∧ raises w (Returned None) st = false).
Proof. done. Qed.

(** Everything one turn of the loop does with a sample. *)
Lemma process_result_sample res st :
  let rid := res_room_id res in
  let cur := live_status (res_data res) in
  let start := fromtimestamp w (live_time (res_data res)) in
  let old := default fresh_room_info (Dict.get rid (room_status st)) in
  ∃ ev st' new,
    process_result w (Returned (Some res)) st = (ev, st')
    ∧ monitor_rooms st' = monitor_rooms st
    ∧ Dict.get rid (room_status st') = Some new
    ∧ (∀ rid', rid' ≠ rid →
         Dict.get rid' (room_status st') = Dict.get rid' (room_status st))
    ∧ raises w (Returned (Some res)) st
      = bool_decide (refused w res ∧ last_status old ≠ Some cur)
    ∧ match last_status old with
      | None =>
          ev = None ∧ st' = Plugin (monitor_rooms st) (room_status st')
                              (anchor_names st) (http_log st)
          ∧ last_status new = Some cur
          ∧ notifications new = notifications old
          ∧ if decide (refused w res) then
              live_start_time new = live_start_time old
              ∧ last_check_time new = last_check_time old
            else
              live_start_time new
              = (if decide (cur = 1) then start else live_start_time old)
              ∧ last_check_time new = Some (res_timestamp res)
      | Some prev =>
          if decide (cur = prev) then
            ev = None ∧ st' = Plugin (monitor_rooms st) (room_status st')
                                (anchor_names st) (http_log st)
            ∧ new = set_last_check_time (Some (res_timestamp res)) old
          else
            let fetched := get_anchor_info w rid st in
            st' = Plugin (monitor_rooms st) (room_status st')
                    (anchor_names fetched.2) (http_log fetched.2)
            ∧ if decide (refused w res) then ev = None ∧ new = old
              else
                let msg := transition_message (bool_decide (cur = 1)) fetched.1 rid in
                ev = Some (Transition rid (bool_decide (cur = 1)) fetched.1 msg)
                ∧ last_status new = Some cur
                ∧ last_check_time new = Some (res_timestamp res)
                ∧ live_start_time new = (if decide (cur = 1) then start else None)
                ∧ notifications new
                  = match find_target_group rid (monitor_rooms st) with
                    | Some g =>
                        if truthy g
                        then Some (default [] (notifications old) ++ [Notification msg g])
                        else notifications old
                    | None => notifications old
                    end
      end.
Proof.
  intros rid cur start old. unfold raises. rewrite process_result_eq.
  unfold loop_body. unfold_MX.
  fold rid cur. fold (ensure_room rid (room_status st)).
  rewrite get_ensure_room. simpl. fold old.
  assert (∀ rid', rid' ≠ rid →
    Dict.get rid' (ensure_room rid (room_status st)) = Dict.get rid' (room_status st))
    as Hframe by (intros; by apply get_ensure_room_ne).
  subst start.
  destruct (last_status old) as [prev|] eqn:Hold.
  - destruct (decide (cur ≠ prev)) as [Hne|Heq].
    + destruct (decide (cur = prev)) as [?|_]; [done|].
      rewrite !get_anchor_info_eq. simpl.
      unfold transition_message. rewrite bool_decide_decide.
      destruct (decide (cur = 1)) as [Hlive|Hlive]; simpl.
      * destruct (fromtimestamp w (live_time (res_data res))) as [d|] eqn:Hstart; simpl.
        -- destruct (decide (refused w res)) as [[? ?]|_]; [congruence|].
           rewrite bool_decide_eq_false_2 by (intros [[_ ?] _]; congruence).
           (destruct (find_target_group rid (monitor_rooms st)) as [g|];
            [destruct (truthy g)|]);
           simpl; eexists _, _, _; (split; [reflexivity|]); simpl;
           rewrite !get_update_eq, get_ensure_room; simpl;
           (split_and!; try reflexivity;
            try (intros rid' Hrid'; rewrite !get_update_ne by done; by apply Hframe)).
        -- destruct (decide (refused w res)) as [_|Hn]; [|by destruct Hn].
           rewrite bool_decide_eq_true_2 by (split; [by split|congruence]).
           eexists _, _, _; (split; [reflexivity|]); simpl.
           rewrite get_ensure_room. split_and!; try reflexivity; try done.
      * destruct (decide (refused w res)) as [[Hc _]|_]; [by destruct Hlive|].
        rewrite bool_decide_eq_false_2 by (by intros [[? _] _]).
        (destruct (find_target_group rid (monitor_rooms st)) as [g|];
         [destruct (truthy g)|]);
        simpl; eexists _, _, _; (split; [reflexivity|]); simpl;
        rewrite !get_update_eq, get_ensure_room; simpl;
        (split_and!; try reflexivity;
         try (intros rid' Hrid'; rewrite !get_update_ne by done; by apply Hframe)).
    + apply dec_stable in Heq. destruct (decide (cur = prev)) as [_|?]; [|done].
      rewrite bool_decide_eq_false_2 by (intros [_ ?]; congruence).
      eexists _, _, _; (split; [reflexivity|]); simpl.
      rewrite !get_update_eq, get_ensure_room; simpl.
      split_and!; try reflexivity.
      intros rid' Hrid'. rewrite !get_update_ne by done. by apply Hframe.
  - destruct (decide (cur = 1)) as [Hlive|Hlive]; simpl.
    + destruct (fromtimestamp w (live_time (res_data res))) as [d|] eqn:Hstart; simpl.
      * destruct (decide (refused w res)) as [[? ?]|_]; [congruence|].
        rewrite bool_decide_eq_false_2 by (intros [[_ ?] _]; congruence).
        eexists _, _, _; (split; [reflexivity|]); simpl;
        rewrite !get_update_eq, get_ensure_room; simpl;
        (split_and!; try reflexivity;
         try (intros rid' Hrid'; rewrite !get_update_ne by done; by apply Hframe)).
      * destruct (decide (refused w res)) as [_|Hn]; [|by destruct Hn].
        rewrite bool_decide_eq_true_2 by (split; [by split|done]).
        eexists _, _, _; (split; [reflexivity|]); simpl;
        rewrite !get_update_eq, get_ensure_room; simpl;
        (split_and!; try reflexivity;
         try (intros rid' Hrid'; rewrite !get_update_ne by done; by apply Hframe)).
    + destruct (decide (refused w res)) as [[Hc _]|_]; [by destruct Hlive|].
      rewrite bool_decide_eq_false_2 by (by intros [[? _] _]).
      eexists _, _, _; (split; [reflexivity|]); simpl;
      rewrite !get_update_eq, get_ensure_room; simpl;
      (split_and!; try reflexivity;
       try (intros rid' Hrid'; rewrite !get_update_ne by done; by apply Hframe)).
Qed.

End Loop.

(** ** Draining *)

Section Drain.

Implicit Types (gid : pystr) (n : notification) (ns : list notification).

Lemma list_remove_middle n (kept l : list notification) :
  n ∉ kept → list_remove n (kept ++ n :: l) = kept ++ l.
Proof.
  induction kept as [|k kept IH]; simpl; intros Hn.
  - by rewrite decide_True.
  - apply not_elem_of_cons in Hn as [? ?].
    rewrite decide_False by done. by rewrite IH.
Qed.

Lemma drain_fold gid out kept l :
  Forall (λ n, target_group n ≠ gid) kept →
  foldl (drain_step gid) (out, kept ++ l) l
  = (out ++ (message <$> filter (λ n, target_group n = gid) l),
     kept ++ filter (λ n, target_group n ≠ gid) l).
Proof.
  revert out kept. induction l as [|n l IH]; intros out kept Hkept; simpl.
  - by rewrite !app_nil_r.
  - unfold drain_step at 2. simpl. rewrite !filter_cons.
    destruct (decide (target_group n = gid)) as [Hn|Hn].
    + rewrite decide_False by (by intros []).
      rewrite list_remove_middle.
      * rewrite IH by done. simpl. by rewrite <- app_assoc.
      * intros Hin. rewrite Forall_forall in Hkept. by apply (Hkept n).
    + rewrite decide_True by done.
      replace (kept ++ n :: l) with ((kept ++ [n]) ++ l) by by rewrite <- app_assoc.
      rewrite IH.
      * by rewrite <- app_assoc.
      * apply Forall_app. split; [done|]. by constructor.
Qed.

Lemma drain_room_eq gid ns :
  drain_room gid ns
  = (message <$> filter (λ n, target_group n = gid) ns,
     filter (λ n, target_group n ≠ gid) ns).
Proof. unfold drain_room. by apply (drain_fold gid [] [] ns). Qed.

Lemma drain_rooms_eq gid rs :
  drain_rooms gid rs = (pending_for gid rs, drained gid rs).
Proof.
  induction rs as [|[rid ri] rs IH]; simpl; [done|].
  rewrite IH. unfold pending_for, drained. simpl.
  unfold room_messages, drained_info.
  destruct (notifications ri) as [ns|] eqn:E; simpl; rewrite ?E; simpl; [|done].
  by rewrite drain_room_eq.
Qed.

Lemma filter_group_drained gid g ns :
  filter (λ n, target_group n = g) (filter (λ n, target_group n ≠ gid) ns)
  = if decide (g = gid) then [] else filter (λ n, target_group n = g) ns.
Proof.
  induction ns as [|n ns IH]; [by case_decide|].
  rewrite (filter_cons (λ n, target_group n ≠ gid)).
  destruct (decide (target_group n ≠ gid)) as [Hn|Hn].
  - rewrite !filter_cons, IH. repeat case_decide; congruence.
  - apply dec_stable in Hn. rewrite IH, filter_cons.
    repeat case_decide; congruence.
Qed.

Lemma room_messages_drained gid g ri :
  room_messages g (drained_info gid ri)
  = if decide (g = gid) then [] else room_messages g ri.
Proof.
  unfold room_messages, drained_info.
  destruct (notifications ri) as [ns|] eqn:E; simpl; rewrite ?E; simpl;
    [|by case_decide].
  rewrite filter_group_drained. by case_decide.
Qed.

Lemma pending_for_drained gid g rs :
  pending_for g (drained gid rs)
  = if decide (g = gid) then [] else pending_for g rs.
Proof.
  induction rs as [|[rid ri] rs IH]; [by case_decide|].
  change (pending_for g (drained gid ((rid, ri) :: rs)))
    with (room_messages g (drained_info gid ri) ++ pending_for g (drained gid rs)).
  change (pending_for g ((rid, ri) :: rs))
    with (room_messages g ri ++ pending_for g rs).
  rewrite IH, room_messages_drained. by case_decide.
Qed.

Lemma get_drained gid rid rs :
  Dict.get rid (drained gid rs) = drained_info gid <$> Dict.get rid rs.
Proof.
  unfold drained. induction rs as [|[k ri] rs IH]; simpl; [done|].
  by case_decide.
Qed.

Lemma pending_for_app gid rs1 rs2 :
  pending_for gid (rs1 ++ rs2) = pending_for gid rs1 ++ pending_for gid rs2.
Proof. unfold pending_for. by rewrite fmap_app, concat_app. Qed.

Lemma room_messages_append gid n ri :
  room_messages gid (append_notification n ri)
  = room_messages gid ri
    ++ (if decide (target_group n = gid) then [message n] else []).
Proof.
  unfold room_messages, append_notification. simpl.
  rewrite filter_app, fmap_app, filter_cons, filter_nil.
  by case_decide.
Qed.

Lemma update_middle (f : room_info → room_info) rid ri rs1 rs2 :
  rid ∉ Dict.keys rs1 →
  Dict.update rid f (rs1 ++ (rid, ri) :: rs2) = rs1 ++ (rid, f ri) :: rs2.
Proof.
  unfold Dict.keys.
  induction rs1 as [|[k v] rs1 IH]; simpl; intros Hk.
  - by rewrite decide_True.
  - apply not_elem_of_cons in Hk as [? ?].
    rewrite decide_False by done. by rewrite IH.
Qed.

End Drain.

(** ** Sequences of samples *)

Section Sequences.

Context (w : world).
Implicit Types (st : plugin) (res : status_result) (rid : pystr).

Lemma mapM_cons {A B} (f : A → M B) a l st :
  mapM f (a :: l) st
  = ((f a st).1 :: (mapM f l (f a st).2).1, (mapM f l (f a st).2).2).
Proof.
  simpl. unfold bind, ret. destruct (f a st) as [b st1]. simpl.
  by destruct (mapM f l st1).
Qed.

Lemma mapM_app {A B} (f : A → M B) l1 l2 st :
  mapM f (l1 ++ l2) st
  = ((mapM f l1 st).1 ++ (mapM f l2 (mapM f l1 st).2).1,
     (mapM f l2 (mapM f l1 st).2).2).
Proof.
  revert st. induction l1 as [|a l1 IH]; intros st.
  - simpl. unfold ret. simpl. by destruct (mapM f l2 st).
  - rewrite <- app_comm_cons, !mapM_cons, IH. done.
Qed.

Lemma apply_samples_cons s samples st :
  apply_samples w (s :: samples) st
  = ((process_result w (Returned (Some s)) st).1
       :: (apply_samples w samples (process_result w (Returned (Some s)) st).2).1,
     (apply_samples w samples (process_result w (Returned (Some s)) st).2).2).
Proof. unfold apply_samples, as_results. by rewrite fmap_cons, mapM_cons. Qed.

Lemma process_results_invariant (P : plugin → Prop) results st :
  (∀ r st, P st → P (process_result w r st).2) →
  P st → P (process_results w results st).2.
Proof.
  intros Hstep. revert st.
  induction results as [|r results IH]; intros st HP; [done|].
  rewrite process_results_cons.
  destruct (raises w r st); cbn [snd]; [by apply Hstep | by apply IH, Hstep].
Qed.

Lemma stored_status_old rid st :
  stored_status rid st
  = last_status (default fresh_room_info (Dict.get rid (room_status st))).
Proof. unfold stored_status. by destruct (Dict.get rid (room_status st)). Qed.

(** The stored status after a sample: the raw status of the sample,
    unless a status was stored and the sample is refused. *)
Lemma stored_status_after res st :
  stored_status (res_room_id res) (process_result w (Returned (Some res)) st).2
  = track w (stored_status (res_room_id res) st) res.
Proof.
  destruct (process_result_sample w res st)
    as (ev & st' & new & -> & _ & Hget & _ & _ & Hcase).
  rewrite (stored_status_old _ st). unfold stored_status, track. cbn [snd].
  rewrite Hget. simpl.
  destruct (last_status _) as [prev|] eqn:Hold.
  - destruct (decide (live_status (res_data res) = prev)) as [Heq|Hne].
    + destruct Hcase as (_ & _ & ->). simpl. rewrite Hold, Heq. by case_decide.
    + destruct Hcase as [_ Hcase].
      destruct (decide (refused w res)).
      * destruct Hcase as [_ ->]. done.
      * by destruct Hcase as (_ & -> & _).
  - by destruct Hcase as (_ & _ & -> & _).
Qed.

Lemma stored_status_other res st rid :
  rid ≠ res_room_id res →
  stored_status rid (process_result w (Returned (Some res)) st).2
  = stored_status rid st.
Proof.
  intros Hne.
  destruct (process_result_sample w res st)
    as (ev & st' & new & -> & _ & _ & Hother & _).
  unfold stored_status. simpl. by rewrite Hother.
Qed.

(** A transition is computed exactly when a status is stored for the
    room, the raw status of the sample is another one, and the sample is
    not refused. *)
Lemma transition_iff_raw_differs res st :
  is_Some (process_result w (Returned (Some res)) st).1
  ↔ ∃ prev, stored_status (res_room_id res) st = Some prev
            ∧ live_status (res_data res) ≠ prev
            ∧ ¬ refused w res.
Proof.
  destruct (process_result_sample w res st)
    as (ev & st' & new & -> & _ & _ & _ & _ & Hcase).
  rewrite (stored_status_old _ st). cbn [fst].
  destruct (last_status _) as [prev|].
  - destruct (decide (live_status (res_data res) = prev)) as [Heq|Hne].
    + destruct Hcase as [-> _]. split; [by intros []|].
      intros (p & [= <-] & ? & _). done.
    + destruct Hcase as [_ Hcase].
      destruct (decide (refused w res)) as [Hr|Hr].
      * destruct Hcase as [-> _]. split; [by intros []|].
        by intros (p & _ & _ & ?).
      * destruct Hcase as [-> _]. split; [|done]. intros _. by exists prev.
  - destruct Hcase as [-> _]. split; [by intros []|]. by intros (? & ? & _).
Qed.

Lemma stored_status_init room_configs rid :
  stored_status rid (init room_configs) = None.
Proof. done. Qed.

(** The stored status of a room follows its samples as [track] says. *)
Lemma stored_status_apply samples st rid :
  stored_status rid (apply_samples w samples st).2
  = foldl (λ stored res, if decide (res_room_id res = rid)
                         then track w stored res else stored)
      (stored_status rid st) samples.
Proof.
  revert st. induction samples as [|s samples IH]; intros st; [done|].
  rewrite apply_samples_cons. cbn [snd foldl]. rewrite IH. f_equal.
  case_decide as Hroom.
  - subst rid. apply stored_status_after.
  - apply stored_status_other. congruence.
Qed.

(** Without refused samples of the room, the status kept is that of the
    room's last sample. *)
Lemma track_last rid samples (stored : option Z) :
  Forall (λ s, res_room_id s = rid → ¬ refused w s) samples →
  foldl (λ stored res, if decide (res_room_id res = rid)
                       then track w stored res else stored) stored samples
  = match last_sample_status rid samples with
    | Some z => Some z
    | None => stored
    end.
Proof.
  unfold last_sample_status. intros Hall. revert stored.
  induction Hall as [|s samples Hs Hall IH]; intros stored; [done|].
  cbn [foldl]. rewrite IH, filter_cons.
  case_decide as Hroom; [|done].
  rewrite fmap_cons, last_cons.
  destruct (last _) as [z|]; [done|].
  unfold track. destruct stored as [prev|]; [|done].
  rewrite decide_False; [done|]. by apply Hs.
Qed.

Lemma stored_status_unseen samples st rid :
  Forall (λ s, res_room_id s ≠ rid) samples →
  stored_status rid (apply_samples w samples st).2 = stored_status rid st.
Proof.
  intros Hall. rewrite stored_status_apply.
  induction Hall as [|s samples Hs Hall IH] in st |- *; [done|].
  cbn [foldl]. by rewrite decide_False.
Qed.

(** With binary samples only, every stored status is binary. *)
Lemma stored_status_binary samples st :
  Forall binary samples →
  (∀ rid z, stored_status rid st = Some z → z = 0 ∨ z = 1) →
  ∀ rid z,
    stored_status rid (apply_samples w samples st).2 = Some z →
    z = 0 ∨ z = 1.
Proof.
  revert st.
  induction samples as [|s samples IH]; intros st Hall Hst; [done|].
  inversion_clear Hall as [|? ? Hs Hrest]. rewrite apply_samples_cons. cbn [snd].
  apply IH; [done|]. intros rid z.
  destruct (decide (rid = res_room_id s)) as [->|Hne].
  - rewrite stored_status_after. unfold track.
    destruct (stored_status (res_room_id s) st) as [prev|] eqn:Hprev.
    + case_decide; intros [= <-]; [by eapply Hst | done].
    + by intros [= <-].
  - rewrite stored_status_other by done. apply Hst.
Qed.

End Sequences.

(** C3 (amended). Samples are applied one turn of the loop after the
    other, starting from the fresh plugin.  The first sample of a room
    computes no transition, whatever its status.  The status stored for a
    room is the one that [tracked] keeps: the status of the room's first
    sample, replaced by that of every later sample that is not refused;
    without refused samples it is the status of the room's last sample.
    When the raw statuses are the two values 0 and 1 of the endpoint
    contract, a sample computes a transition if and only if a status is
    stored for its room, the mapped status of the sample differs from the
    stored one, and the sample is not refused, that is, it is not a live
    sample whose start time [datetime.fromtimestamp] rejects.  The loop
    itself compares raw values: for any statuses, a transition is computed
    if and only if a status is stored, the raw status of the sample is
    another number, and the sample is not refused. *)
Theorem transition_iff_changed_and_accepted
    (w : world) (room_configs : pystr)
    (samples : list status_result) (res : status_result) :
  let rid := res_room_id res in
  let st := (apply_samples w samples (init room_configs)).2 in
  let prior := mapped_stored (stored_status rid st) in
  let event := (process_result w (Returned (Some res)) st).1 in
  (Forall (λ s, res_room_id s ≠ rid) samples → event = None)
  ∧ stored_status rid st = tracked w rid samples
  ∧ (Forall (λ s, res_room_id s = rid → ¬ refused w s) samples →
     stored_status rid st = last_sample_status rid samples)
  ∧ (Forall binary (samples ++ [res]) →
     (is_Some event
      ↔ prior ≠ Unknown ∧ mapped (live_status (res_data res)) ≠ prior
        ∧ ¬ refused w res))
  ∧ (is_Some event
     ↔ ∃ prev, stored_status rid st = Some prev
               ∧ live_status (res_data res) ≠ prev
               ∧ ¬ refused w res).
Proof.
  intros rid st prior event.
  assert (stored_status rid st = tracked w rid samples) as Htracked.
  { unfold st, tracked. by rewrite stored_status_apply, stored_status_init. }
  split_and!; [| done | | |apply transition_iff_raw_differs].
  - intros Hfirst.
    pose proof (stored_status_unseen w samples (init room_configs) _ Hfirst) as Hst.
    rewrite stored_status_init in Hst. fold st in Hst.
    destruct event as [ev|] eqn:Hev; [|done].
    assert (is_Some event) as Hsome by (by rewrite Hev).
    apply transition_iff_raw_differs in Hsome as (prev & Hprev & _).
    fold st rid in Hprev. congruence.
  - intros Hall. rewrite Htracked. unfold tracked.
    rewrite (track_last w rid samples None Hall).
    by destruct (last_sample_status rid samples).
  - intros [Hsamples Hres]%Forall_app.
    apply (proj1 (Forall_singleton _ _)) in Hres.
    unfold event. rewrite transition_iff_raw_differs. fold st rid.
    pose proof (stored_status_binary w samples (init room_configs) Hsamples) as Hbin.
    fold st in Hbin. unfold prior.
    destruct (stored_status rid st) as [prev|] eqn:Hprev; simpl.
    + assert (prev = 0 ∨ prev = 1) as Hp.
      { eapply Hbin; [|done]. intros r z. by rewrite stored_status_init. }
      unfold mapped. split.
      * intros (p & [= <-] & Hne & Hacc). split_and!; [by case_decide| |done].
        destruct Hres as [Hr|Hr], Hp as [Hp|Hp]; subst prev;
          rewrite Hr in Hne |- *; repeat case_decide; done.
      * intros (_ & Hne & Hacc). exists prev. split_and!; [done| |done].
        intros Heq. by rewrite Heq in Hne.
    + split; [by intros (? & ? & _)|]. by intros [? _].
Qed.

(** Room ["1"]: its first sample computes nothing; found offline and
    then live, the second sample computes a transition, and the status
    stored before it is that of the first sample. *)
Lemma transition_iff_changed_and_accepted_witness :
  (process_result (Demo.goes_live 0) (Returned (Some (Scenario.sample (py "1") 1)))
     (init (py "1:A"))).1 = None
  ∧ stored_status (py "1")
      (apply_samples (Demo.goes_live 0) [Scenario.sample (py "1") 0]
         (init (py "1:A"))).2 = Some 0
  ∧ is_Some
      (process_result (Demo.goes_live 0) (Returned (Some (Scenario.sample (py "1") 1)))
         (apply_samples (Demo.goes_live 0)
            [Scenario.sample (py "1") 0] (init (py "1:A"))).2).1.
Proof.
  split_and!.
  - destruct (transition_iff_changed_and_accepted (Demo.goes_live 0) (py "1:A") []
                (Scenario.sample (py "1") 1)) as (Hfirst & _).
    apply Hfirst. constructor.
  - destruct (transition_iff_changed_and_accepted (Demo.goes_live 0) (py "1:A")
                [Scenario.sample (py "1") 0] (Scenario.sample (py "1") 1))
      as (_ & _ & Hlast & _).
    simpl in Hlast. rewrite Hlast; [vm_compute; reflexivity|].
    apply Forall_singleton. intros _ [_ Hno]. vm_compute in Hno. discriminate.
  - destruct (transition_iff_changed_and_accepted (Demo.goes_live 0) (py "1:A")
                [Scenario.sample (py "1") 0] (Scenario.sample (py "1") 1))
      as (_ & _ & _ & Hiff & _).
    apply Hiff.
    + apply Forall_app. split; apply Forall_singleton; [left | right]; reflexivity.
    + split_and!; [vm_compute; discriminate | vm_compute; discriminate |].
      intros [_ Hno]. vm_compute in Hno. discriminate.
Defined.

(** A room stored as offline is found live, with a start time given in
    milliseconds: a status is stored, the mapped status differs from it,
    and yet no transition is computed; the room stays stored as offline,
    and the request for the anchor's name has gone out. *)
Lemma refused_sample_gives_no_event :
  let st := (apply_samples (Demo.goes_live 0) [Scenario.sample (py "1") 0]
               (init (py "1:A"))).2 in
  let turn := process_result (Demo.goes_live 0)
                (Returned (Some (Scenario.live_in_milliseconds (py "1")))) st in
  mapped_stored (stored_status (py "1") st) = Offline
  ∧ mapped (live_status (res_data (Scenario.live_in_milliseconds (py "1")))) = Live
  ∧ turn.1 = None
  ∧ stored_status (py "1") turn.2 = Some 0
  ∧ http_log turn.2 = [GetRoomInfo (py "1")]
  ∧ ¬ event_iff_status_differs (Demo.goes_live 0) (py "1:A")
        [Scenario.sample (py "1") 0] (Scenario.live_in_milliseconds (py "1")).
Proof.
  split_and!; [vm_compute; reflexivity..|].
  unfold event_iff_status_differs. intros [_ Hspec].
  assert (is_Some (process_result (Demo.goes_live 0)
                     (Returned (Some (Scenario.live_in_milliseconds (py "1"))))
                     (apply_samples (Demo.goes_live 0) [Scenario.sample (py "1") 0]
                        (init (py "1:A"))).2).1) as [ev Hev].
  { apply Hspec. split; vm_compute; discriminate. }
  vm_compute in Hev. discriminate.
Qed.

(** ** Reports and the message handler *)

Section Handler.

Context (w : world).
Implicit Types (st : plugin) (rid gid : pystr).

Lemma check_live_status_state rid st :
  (check_live_status w rid st).2 = logged [GetLiveStatus rid] st.
Proof. by rewrite check_live_status_eq. Qed.

Lemma check_live_status_fails_iff rid st :
  (check_live_status w rid st).1 = None
  ↔ fetched_status (live_status_api w (length (http_log st)) rid) = None.
Proof.
  rewrite check_live_status_eq. simpl.
  by destruct (fetched_status _).
Qed.

Lemma check_live_status_room rid st res :
  (check_live_status w rid st).1 = Some res → res_room_id res = rid.
Proof.
  rewrite check_live_status_eq. simpl.
  destruct (fetched_status _); simpl; [|done]. by intros [= <-].
Qed.

Lemma get_live_info_state rid st :
  (get_live_info w rid st).2 = logged [GetLiveStatus rid] st.
Proof.
  unfold get_live_info. unfold bind at 1.
  pose proof (check_live_status_state rid st) as Hst.
  destruct (check_live_status w rid st) as [[res|] st1]; simpl in Hst; subst st1;
    [|done].
  unfold_M.
  destruct (decide (live_status (res_data res) = 1)); [|done].
  destruct (live_start_time _); [|done].
  by destruct (hms w _) as [[hours minutes] seconds].
Qed.

Lemma logged_logged reqs1 reqs2 st :
  logged reqs2 (logged reqs1 st) = logged (reqs1 ++ reqs2) st.
Proof. unfold logged. simpl. by rewrite <- app_assoc. Qed.

Lemma logged_nil st : logged [] st = st.
Proof. unfold logged. rewrite app_nil_r. by destruct st. Qed.

Lemma reports_state rids st :
  (mapM (get_live_info w) rids st).2 = logged (GetLiveStatus <$> rids) st.
Proof.
  revert st. induction rids as [|rid rids IH]; intros st.
  - simpl. by rewrite logged_nil.
  - rewrite mapM_cons. cbn [fst snd].
    by rewrite IH, get_live_info_state, logged_logged.
Qed.

Lemma reports_length rids st :
  length (mapM (get_live_info w) rids st).1 = length rids.
Proof.
  revert st. induction rids as [|rid rids IH]; intros st; [done|].
  rewrite mapM_cons. cbn [fst snd length]. by rewrite IH.
Qed.

Lemma collect_info_eq gid rooms st :
  collect_info w gid rooms st
  = mapM (get_live_info w)
      (room_id <$> filter (λ rc, group_id rc = gid) rooms) st.
Proof.
  revert st. induction rooms as [|rc rooms IH]; intros st; [done|].
  rewrite filter_cons. simpl.
  destruct (decide (group_id rc = gid)); [|by apply IH].
  rewrite fmap_cons. simpl. unfold bind.
  destruct (get_live_info w (room_id rc) st) as [info st1].
  by rewrite IH.
Qed.

Lemma drain_eq gid st :
  drain gid st
  = (pending_for gid (room_status st),
     Plugin (monitor_rooms st) (drained gid (room_status st))
       (anchor_names st) (http_log st)).
Proof. unfold drain. by rewrite drain_rooms_eq. Qed.

Lemma drained_info_twice gid ri :
  drained_info gid (drained_info gid ri) = drained_info gid ri.
Proof.
  unfold drained_info.
  destruct (notifications ri) as [ns|] eqn:E; simpl; rewrite ?E; [|done].
  unfold set_notifications. simpl. do 2 f_equal.
  rewrite list_filter_filter. apply list_filter_iff. intros n. tauto.
Qed.

Lemma drained_twice gid rs : drained gid (drained gid rs) = drained gid rs.
Proof.
  unfold drained. rewrite <- list_fmap_compose.
  apply list_fmap_ext. intros i [k ri] _. simpl.
  by rewrite drained_info_twice.
Qed.

Lemma drained_info_fields gid ri :
  last_status (drained_info gid ri) = last_status ri
  ∧ live_start_time (drained_info gid ri) = live_start_time ri
  ∧ last_check_time (drained_info gid ri) = last_check_time ri.
Proof. unfold drained_info. by destruct (notifications ri). Qed.

(** What the handler does, in one equation per kind of text. *)
Lemma on_group_message_eq event st :
  let gid := ev_group_id event in
  let st1 := (drain gid st).2 in
  let pending := pending_for gid (room_status st) in
  let rids := room_id <$> filter (λ rc, group_id rc = gid) (monitor_rooms st) in
  let reports := mapM (get_live_info w) rids st1 in
  on_group_message w event st
  = if decide (lower w (strip (message_str event)) = py "liveinfo") then
      (pending
         ++ [match reports.1 with
             | [] => py "该群没有配置监控的直播间"
             | _ => py "直播间状态" ++ nl ++ nl ++ times 61 20 ++ join nl reports.1
             end],
       reports.2)
    else (pending, st1).
Proof.
  intros gid st1 pending rids reports. subst st1 pending reports.
  unfold on_group_message. fold gid. unfold bind at 1.
  rewrite !drain_eq. cbn [fst snd].
  case_decide; [|done].
  unfold bind, gets. cbn [monitor_rooms]. rewrite collect_info_eq. fold rids.
  set (r := mapM (get_live_info w) rids _).
  by destruct r as [[|info infos] st2].
Qed.

Lemma on_group_message_rooms event st rid :
  Dict.get rid (room_status (on_group_message w event st).2)
  = drained_info (ev_group_id event) <$> Dict.get rid (room_status st).
Proof.
  rewrite on_group_message_eq. rewrite drain_eq. cbn [fst snd].
  case_decide; cbn [fst snd].
  - rewrite reports_state. simpl. apply get_drained.
  - simpl. apply get_drained.
Qed.

Lemma gather_status_state rooms st :
  (gather_status w rooms st).2
  = logged ((λ rc, GetLiveStatus (room_id rc)) <$> rooms) st.
Proof.
  unfold gather_status. revert st.
  induction rooms as [|rc rooms IH]; intros st.
  - simpl. by rewrite logged_nil.
  - rewrite mapM_cons. cbn [fst snd]. rewrite IH.
    unfold bind, ret.
    pose proof (check_live_status_state (room_id rc) st) as Hst.
    destruct (check_live_status w (room_id rc) st) as [r st1].
    simpl in *. subst st1. by rewrite logged_logged.
Qed.

(** The [i]-th result of the fan-out is what [check_live_status] returns
    for the [i]-th entry once the requests of the entries before it are
    out. *)
Lemma gather_status_lookup rooms st i :
  (gather_status w rooms st).1 !! i
  = (λ rc, Returned
             (check_live_status w (room_id rc)
                (logged ((λ rc', GetLiveStatus (room_id rc')) <$> take i rooms) st)).1)
      <$> rooms !! i.
Proof.
  unfold gather_status. revert st i.
  induction rooms as [|rc rooms IH]; intros st i; [done|].
  rewrite mapM_cons. cbn [fst snd].
  destruct i as [|i].
  - simpl. rewrite logged_nil. unfold bind, ret.
    by destruct (check_live_status w (room_id rc) st).
  - cbn [lookup list_lookup take fmap list_fmap]. rewrite IH.
    destruct (rooms !! i) as [rc'|]; [|done]. cbn [fmap option_fmap option_map].
    do 3 f_equal. unfold bind, ret.
    pose proof (check_live_status_state (room_id rc) st) as Hst.
    destruct (check_live_status w (room_id rc) st) as [r st1].
    simpl in Hst. subst st1. cbn [snd].
    by rewrite logged_logged.
Qed.

(** When the network fails every status request of the cycle for a room,
    no gathered result carries a sample of that room. *)
Lemma no_sample_when_fetch_fails st rid :
  (∀ i rc, monitor_rooms st !! i = Some rc → room_id rc = rid →
     fetched_status (live_status_api w (length (http_log st) + i) rid) = None) →
  ∀ res, Returned (Some res) ∈ (gather_status w (monitor_rooms st) st).1 →
         res_room_id res ≠ rid.
Proof.
  intros Hfail res [i Hi]%list_elem_of_lookup.
  rewrite gather_status_lookup in Hi.
  destruct (monitor_rooms st !! i) as [rc|] eqn:Hrc; [|done].
  simpl in Hi. injection Hi as Hi.
  pose proof (check_live_status_room _ _ _ Hi) as Hroom.
  intros Hrid. rewrite Hroom in Hrid.
  assert ((check_live_status w (room_id rc)
             (logged ((λ rc', GetLiveStatus (room_id rc')) <$> take i (monitor_rooms st))
                st)).1 = None) as Hnone; [|congruence].
  apply check_live_status_fails_iff. simpl.
  rewrite length_app, length_fmap, length_take_le.
  - rewrite Hrid. by apply (Hfail i rc).
  - apply lookup_lt_Some in Hrc. lia.
Qed.

Lemma monitor_cycle_eq st :
  monitor_cycle w st
  = process_results w (gather_status w (monitor_rooms st) st).1
      (gather_status w (monitor_rooms st) st).2.
Proof.
  unfold monitor_cycle. unfold_M.
  by destruct (gather_status w (monitor_rooms st) st).
Qed.

End Handler.

(** ** The invariant of the room entries *)

Section Invariant.

Context (w : world).
Implicit Types (st : plugin) (res : status_result) (rid : pystr).

Lemma process_results_invariant_on (P : plugin → Prop)
    (Q : gathered (option status_result) → Prop) results st :
  (∀ r st, Q r → P st → P (process_result w r st).2) →
  Forall Q results → P st → P (process_results w results st).2.
Proof.
  intros Hstep Hall. revert st.
  induction Hall as [|r results Hr Hall IH]; intros st HP; [done|].
  rewrite process_results_cons.
  destruct (raises w r st); cbn [snd]; [by apply Hstep | by apply IH, Hstep].
Qed.

Lemma fresh_or_stored_consistent rid st :
  statuses_consistent st →
  start_time_iff_live (default fresh_room_info (Dict.get rid (room_status st))).
Proof.
  intros Hst. destruct (Dict.get rid (room_status st)) as [ri|] eqn:E; simpl.
  - by eapply Hst.
  - split; [by intros [? [=]]|done].
Qed.

(** A turn of the loop on a sample that is not refused keeps the start
    time in step with the stored status. *)
Lemma consistent_sample r st :
  converts w (Sample r) →
  statuses_consistent st → statuses_consistent (process_result w r st).2.
Proof.
  intros Hconv Hst. destruct r as [|[res|]]; [done| |done]. simpl in Hconv.
  pose proof (fresh_or_stored_consistent (res_room_id res) st Hst) as Hold.
  destruct (process_result_sample w res st)
    as (ev & st' & new & -> & _ & Hget & Hother & _ & Hcase).
  simpl in *. intros rid ri.
  destruct (decide (rid = res_room_id res)) as [->|Hne].
  - rewrite Hget. intros [= <-]. unfold start_time_iff_live in *.
    destruct (decide (refused w res)) as [?|Hacc]; [done|].
    destruct (last_status _) as [prev|] eqn:Hprev.
    + destruct (decide (live_status (res_data res) = prev)) as [Heq|Hneq].
      * destruct Hcase as (_ & _ & ->). simpl. by rewrite Hprev.
      * destruct Hcase as (_ & _ & -> & _ & -> & _).
        case_decide as H1.
        -- rewrite H1. split; [done|]. intros _.
           destruct (fromtimestamp w _) eqn:Hs; [done|]. by destruct Hacc.
        -- split; [by intros [? [=]] | by intros [=]].
    + destruct Hcase as (_ & _ & -> & _ & -> & _).
      case_decide as H1.
      * rewrite H1. split; [done|]. intros _.
        destruct (fromtimestamp w _) eqn:Hs; [done|]. by destruct Hacc.
      * rewrite Hold. split; [done | by intros [=]].
  - rewrite Hother by done. apply Hst.
Qed.

(** Whatever the sample, a start time is stored only with the status
    live. *)
Lemma only_live_sample r st :
  start_times_only_live st → start_times_only_live (process_result w r st).2.
Proof.
  intros Hst. destruct r as [|[res|]]; [done| |done].
  assert (is_Some (live_start_time
            (default fresh_room_info
               (Dict.get (res_room_id res) (room_status st)))) →
          last_status (default fresh_room_info
                         (Dict.get (res_room_id res) (room_status st))) = Some 1)
    as Hold.
  { destruct (Dict.get _ (room_status st)) as [ri|] eqn:E; simpl.
    - by eapply Hst.
    - by intros [? [=]]. }
  destruct (process_result_sample w res st)
    as (ev & st' & new & -> & _ & Hget & Hother & _ & Hcase).
  simpl in *. intros rid ri.
  destruct (decide (rid = res_room_id res)) as [->|Hne].
  - rewrite Hget. intros [= <-].
    destruct (last_status _) as [prev|] eqn:Hprev.
    + destruct (decide (live_status (res_data res) = prev)) as [Heq|Hneq].
      * destruct Hcase as (_ & _ & ->). simpl. by rewrite Hprev.
      * destruct Hcase as [_ Hcase].
        destruct (decide (refused w res)).
        -- destruct Hcase as [_ ->]. by rewrite Hprev.
        -- destruct Hcase as (_ & -> & _ & -> & _).
           case_decide as H1; [by rewrite H1 | by intros [? [=]]].
    + destruct Hcase as (_ & _ & -> & _ & Hcase).
      destruct (decide (refused w res)) as [[H1 _]|_].
      * by rewrite H1.
      * destruct Hcase as [-> _]. case_decide as H1; [by rewrite H1|].
        intros Hs. by apply Hold in Hs.
  - rewrite Hother by done. apply Hst.
Qed.

Lemma only_live_message event st :
  start_times_only_live st →
  start_times_only_live (on_group_message w event st).2.
Proof.
  intros Hst rid ri. rewrite on_group_message_rooms.
  destruct (Dict.get rid (room_status st)) as [old|] eqn:E; simpl; [|done].
  intros [= <-].
  destruct (drained_info_fields (ev_group_id event) old) as (-> & -> & _).
  by eapply Hst.
Qed.

Lemma only_live_perform a st :
  start_times_only_live st → start_times_only_live (perform w a st).
Proof.
  intros Hst. destruct a as [|r|event]; simpl.
  - rewrite monitor_cycle_eq.
    apply process_results_invariant; [apply only_live_sample|].
    by rewrite gather_status_state.
  - by apply only_live_sample.
  - by apply only_live_message.
Qed.

(** What the fan-out gathers are answers of the live-status endpoint. *)
Lemma gathered_data rooms st r :
  r ∈ (gather_status w rooms st).1 →
  ∃ rid n, r = Returned ((λ d, StatusResult rid d (clock w (S n)))
                           <$> fetched_status (live_status_api w n rid)).
Proof.
  intros [i Hi]%list_elem_of_lookup. rewrite gather_status_lookup in Hi.
  destruct (rooms !! i) as [rc|] eqn:Hrc; [|done].
  simpl in Hi. injection Hi as <-. rewrite check_live_status_eq. cbn [fst].
  exists (room_id rc),
    (length (http_log
               (logged ((λ rc', GetLiveStatus (room_id rc')) <$> take i rooms) st))).
  cbn [http_log]. rewrite (length_app _ [_]). simpl. by rewrite Nat.add_1_r.
Qed.

Lemma gathered_convert rooms st :
  start_times_convert w →
  Forall (λ r, converts w (Sample r)) (gather_status w rooms st).1.
Proof.
  intros Hw. apply Forall_forall. intros r Hr.
  apply gathered_data in Hr as (rid & n & ->). simpl.
  destruct (fetched_status _) as [d|] eqn:Hd; simpl; [|done].
  intros [Hlive Hnone]. simpl in *.
  destruct (Hw n rid d Hd Hlive) as [? ?]. congruence.
Qed.

Lemma consistent_cycle st :
  start_times_convert w →
  statuses_consistent st → statuses_consistent (monitor_cycle w st).2.
Proof.
  intros Hw Hst. rewrite monitor_cycle_eq.
  apply (process_results_invariant_on _ (λ r, converts w (Sample r)));
    [apply consistent_sample | by apply gathered_convert |].
  by rewrite gather_status_state.
Qed.

Lemma consistent_message event st :
  statuses_consistent st → statuses_consistent (on_group_message w event st).2.
Proof.
  intros Hst rid ri. rewrite on_group_message_rooms.
  destruct (Dict.get rid (room_status st)) as [old|] eqn:E; simpl; [|done].
  intros [= <-]. unfold start_time_iff_live.
  destruct (drained_info_fields (ev_group_id event) old) as (-> & -> & _).
  by eapply Hst.
Qed.

Lemma consistent_perform_all acts st :
  start_times_convert w → Forall (converts w) acts →
  statuses_consistent st → statuses_consistent (perform_all w acts st).
Proof.
  intros Hw Hacts. unfold perform_all. revert st.
  induction Hacts as [|a acts Ha Hacts IH]; intros st Hst; [done|].
  simpl. apply IH. destruct a; simpl.
  - by apply consistent_cycle.
  - by apply consistent_sample.
  - by apply consistent_message.
Qed.

Lemma event_room res st ev :
  (process_result w (Returned (Some res)) st).1 = Some ev →
  tr_room_id ev = res_room_id res.
Proof.
  destruct (process_result_sample w res st)
    as (e & st' & new & -> & _ & _ & _ & _ & Hcase).
  simpl. intros ->.
  destruct (last_status _) as [prev|].
  - case_decide; [by destruct Hcase|]. destruct Hcase as [_ Hcase].
    case_decide; [by destruct Hcase|]. by destruct Hcase as [[= ->] _].
  - by destruct Hcase.
Qed.

Lemma find_target_group_first rid pre rc post :
  Forall (λ rc', room_id rc' ≠ rid) pre → room_id rc = rid →
  find_target_group rid (pre ++ rc :: post) = Some (group_id rc).
Proof.
  unfold find_target_group. intros Hpre Hrc.
  induction Hpre as [|rc' pre Hrc' Hpre IH]; simpl.
  - by rewrite decide_True.
  - rewrite decide_False by done.
    destruct (list_find _ (pre ++ rc :: post)) as [[i x]|]; simpl in *; done.
Qed.

Lemma find_target_group_none rid rooms :
  Forall (λ rc, room_id rc ≠ rid) rooms → find_target_group rid rooms = None.
Proof.
  unfold find_target_group. induction 1 as [|rc rooms Hrc Hrooms IH]; simpl; [done|].
  rewrite decide_False by done.
  by destruct (list_find _ rooms) as [[i x]|].
Qed.

Lemma process_result_other res st rid :
  rid ≠ res_room_id res →
  Dict.get rid (room_status (process_result w (Returned (Some res)) st).2)
  = Dict.get rid (room_status st).
Proof.
  intros Hne.
  destruct (process_result_sample w res st)
    as (ev & st' & new & -> & _ & _ & Hother & _).
  by apply Hother.
Qed.

(** Samples of other rooms and failed fetches leave a room as it is. *)
Lemma untouched_room results st rid :
  (∀ res, Returned (Some res) ∈ results → res_room_id res ≠ rid) →
  Dict.get rid (room_status (process_results w results st).2)
  = Dict.get rid (room_status st)
  ∧ ∀ ev, Some ev ∈ (process_results w results st).1 → tr_room_id ev ≠ rid.
Proof.
  revert st.
  induction results as [|r results IH]; intros st Hres.
  - split; [done|]. simpl. by intros ev ?%elem_of_nil.
  - rewrite process_results_cons.
    destruct (IH (process_result w r st).2) as [IH1 IH2].
    { intros res Hin. apply Hres. by right. }
    assert (Dict.get rid (room_status (process_result w r st).2)
            = Dict.get rid (room_status st)
            ∧ ∀ ev, (process_result w r st).1 = Some ev → tr_room_id ev ≠ rid)
      as [H1 H2].
    { destruct r as [|[res|]]; [done| |done].
      assert (res_room_id res ≠ rid) as Hne by (apply Hres; by left).
      split; [by apply process_result_other|].
      intros ev Hev. by rewrite (event_room _ _ _ Hev). }
    destruct (raises w r st); cbn [fst snd].
    + split; [done|]. by intros ev ?%elem_of_nil.
    + split; [by rewrite IH1|].
      intros ev [Hev|Hin]%elem_of_cons; [by apply H2 | by apply IH2].
Qed.

(** Failed fetches can be left out of a cycle. *)
Lemma skip_failures results st :
  (process_results w results st).2
  = (process_results w (filter (λ r, succeeded r) results) st).2
  ∧ transitions (process_results w results st).1
    = transitions (process_results w (filter (λ r, succeeded r) results) st).1.
Proof.
  revert st.
  induction results as [|r results IH]; intros st; [done|].
  rewrite filter_cons. destruct (decide (succeeded r)) as [Hr|Hr].
  - rewrite !process_results_cons. destruct (raises w r st); [done|]. cbn [fst snd].
    destruct (IH (process_result w r st).2) as [-> H2].
    split; [done|]. unfold transitions in *.
    destruct ((process_result w r st).1); simpl; [f_equal|]; exact H2.
  - rewrite process_results_cons.
    assert (process_result w r st = (None, st) ∧ raises w r st = false) as [-> ->]
      by (by destruct r as [|[res|]]).
    simpl. apply IH.
Qed.

End Invariant.

(** ** The statements about the monitor *)

(** C4. The invariant "the start time is there exactly while the stored
    status is live" is broken by the first observation of a room: the
    status is stored before the start time is converted.  When room ["1"]
    is first seen live with a start time that [datetime.fromtimestamp]
    refuses (1700000000000, the time in milliseconds), the turn raises
    after the status is stored: the entry is left with the status live, no
    start time and no check time, and it stays so in the cycles that
    follow, in which the room is found live again. *)
Theorem first_live_sample_without_start_time :
  let st := (monitor_cycle Demo.milliseconds (init (py "1:A"))).2 in
  raises Demo.milliseconds
    (Returned (Some (StatusResult (py "1") (StatusData 1 1700000000000)
                       1700000100000001)))
    (logged [GetLiveStatus (py "1")] (init (py "1:A"))) = true
  ∧ Dict.get (py "1") (room_status st) = Some (RoomInfo (Some 1) None None None)
  ∧ ¬ start_time_iff_live (RoomInfo (Some 1) None None None)
  ∧ Dict.get (py "1")
      (room_status (perform_all Demo.milliseconds [Cycle; Cycle; Cycle]
                      (init (py "1:A"))))
    = Some (RoomInfo (Some 1) None (Some 1700000100000003) None).
Proof.
  split_and!; [vm_compute; reflexivity | vm_compute; reflexivity |
               | vm_compute; reflexivity].
  unfold start_time_iff_live. simpl. intros [_ H].
  destruct H as [? [=]]. reflexivity.
Qed.

(** C1 (amended). When a sample for a room computes a transition, the
    message is stored once, on that room's entry, for the group of the
    first registry entry with that room_id, provided that group is not the
    empty string; nothing is stored when that group is empty or no entry
    has that room_id, and the entries of the other rooms are left alone. *)
Theorem notification_for_first_entry
    (w : world) (res : status_result) (st : plugin) (ev : transition) :
  let rid := res_room_id res in
  let st' := (process_result w (Returned (Some res)) st).2 in
  (process_result w (Returned (Some res)) st).1 = Some ev →
  tr_room_id ev = rid
  ∧ (∀ rid', rid' ≠ rid →
       Dict.get rid' (room_status st') = Dict.get rid' (room_status st))
  ∧ (∀ pre rc post,
       monitor_rooms st = pre ++ rc :: post →
       Forall (λ rc', room_id rc' ≠ rid) pre → room_id rc = rid →
       room_pending rid st'
       = room_pending rid st
         ++ (if truthy (group_id rc)
             then [Notification (tr_message ev) (group_id rc)] else []))
  ∧ (Forall (λ rc, room_id rc ≠ rid) (monitor_rooms st) →
     room_pending rid st' = room_pending rid st).
Proof.
  intros rid st' Hev. subst st'.
  pose proof (event_room w res st ev Hev) as Hroom.
  destruct (process_result_sample w res st)
    as (e & st' & new & Hrun & _ & Hget & Hother & _ & Hcase).
  rewrite Hrun in Hev |- *. simpl in Hev |- *. subst e. fold rid in Hget, Hother, Hcase.
  split_and!; [done | done | |].
  - intros pre rc post Hrooms Hpre Hrc.
    unfold room_pending. rewrite Hget. simpl.
    assert (default [] (Dict.get rid (room_status st) ≫= notifications)
            = default [] (notifications
                (default fresh_room_info (Dict.get rid (room_status st))))) as ->
      by (by destruct (Dict.get rid (room_status st))).
    destruct (last_status _) as [prev|]; [|by destruct Hcase].
    case_decide; [by destruct Hcase|]. destruct Hcase as [_ Hcase].
    case_decide; [by destruct Hcase|].
    destruct Hcase as ([= ->] & _ & _ & _ & ->). simpl.
    rewrite Hrooms, (find_target_group_first rid pre rc post) by done.
    destruct (truthy (group_id rc)); simpl; [done|]. by rewrite app_nil_r.
  - intros Hnone. unfold room_pending. rewrite Hget. simpl.
    assert (default [] (Dict.get rid (room_status st) ≫= notifications)
            = default [] (notifications
                (default fresh_room_info (Dict.get rid (room_status st))))) as ->
      by (by destruct (Dict.get rid (room_status st))).
    destruct (last_status _) as [prev|]; [|by destruct Hcase].
    case_decide; [by destruct Hcase|]. destruct Hcase as [_ Hcase].
    case_decide; [by destruct Hcase|].
    destruct Hcase as (_ & _ & _ & _ & ->).
    by rewrite (find_target_group_none rid _ Hnone).
Qed.

(** Room ["1"] is listed for the groups ["A"] and ["B"]; when it goes
    live the message is stored for ["A"]. *)
Lemma notification_for_first_entry_witness :
  room_pending (py "1")
    (process_result (Demo.goes_live 2)
       (Returned (Some (Scenario.sample (py "1") 1))) Scenario.listed_twice).2
  = room_pending (py "1") Scenario.listed_twice
    ++ [Notification (tr_message Scenario.room1_goes_live) (py "A")].
Proof.
  destruct (notification_for_first_entry (Demo.goes_live 2)
              (Scenario.sample (py "1") 1) Scenario.listed_twice
              Scenario.room1_goes_live) as (_ & _ & H & _);
    [vm_compute; reflexivity|].
  apply (H [] (RoomConfig (py "1") (py "A")) [RoomConfig (py "1") (py "B")]).
  - vm_compute. reflexivity.
  - constructor.
  - reflexivity.
Defined.

(** The second entry of room ["1"] gets nothing: after the transition,
    and after the whole cycle in which both fetches of the room report it
    live, group ["A"] has the message and group ["B"] has none. *)
Lemma second_entry_not_notified :
  pending_for (py "A")
    (room_status (monitor_cycle (Demo.goes_live 2) Scenario.listed_twice).2)
  = [tr_message Scenario.room1_goes_live]
  ∧ pending_for (py "B")
      (room_status (monitor_cycle (Demo.goes_live 2) Scenario.listed_twice).2)
    = []
  ∧ ¬ every_entry_notified (Demo.goes_live 2)
        (Scenario.sample (py "1") 1) Scenario.listed_twice.
Proof.
  split_and!; [vm_compute; reflexivity | vm_compute; reflexivity |].
  unfold every_entry_notified. intros Hspec.
  assert (tr_message Scenario.room1_goes_live
          ∈ pending_for (group_id (RoomConfig (py "1") (py "B")))
              (room_status
                 (process_result (Demo.goes_live 2)
                    (Returned (Some (Scenario.sample (py "1") 1)))
                    Scenario.listed_twice).2)) as Hin.
  { apply Hspec.
    - vm_compute. reflexivity.
    - apply (bool_decide_unpack _). vm_compute. exact I.
    - reflexivity. }
  vm_compute in Hin. inversion Hin.
Qed.

(** C6. When every status fetch of a cycle for a room fails (the request
    is answered by anything but a code 0 envelope with its data), the
    room's entry after the cycle is its entry before the cycle (every
    field, the stored notifications included) and no transition is
    computed for it; and the cycle ends in the same state, with the same
    transitions, as if the failed fetches were not among the results at
    all. *)
Theorem failed_fetch_keeps_room_state (w : world) (st : plugin) (rid : pystr) :
  let fetched := gather_status w (monitor_rooms st) st in
  let cycle := monitor_cycle w st in
  let ok := filter (λ r, succeeded r) fetched.1 in
  ((∀ i rc, monitor_rooms st !! i = Some rc → room_id rc = rid →
      fetched_status (live_status_api w (length (http_log st) + i) rid) = None) →
   Dict.get rid (room_status cycle.2) = Dict.get rid (room_status st)
   ∧ ∀ ev, Some ev ∈ cycle.1 → tr_room_id ev ≠ rid)
  ∧ cycle.2 = (process_results w ok fetched.2).2
  ∧ transitions cycle.1 = transitions (process_results w ok fetched.2).1.
Proof.
  intros fetched cycle ok. subst cycle. rewrite monitor_cycle_eq. fold fetched.
  split; [|apply skip_failures].
  intros Hfail.
  pose proof (no_sample_when_fetch_fails w st rid Hfail) as Hnone.
  destruct (untouched_room w fetched.1 fetched.2 rid Hnone) as [Hget Hev].
  split; [|done]. rewrite Hget. unfold fetched.
  by rewrite gather_status_state.
Qed.

(** Room ["2"] cannot be reached in the second cycle while room ["1"]
    goes live: the entry of room ["2"] stays, room ["1"] is processed. *)
Lemma failed_fetch_keeps_room_state_witness :
  Dict.get (py "2") (room_status (monitor_cycle Demo.flaky Scenario.two_rooms).2)
  = Dict.get (py "2") (room_status Scenario.two_rooms)
  ∧ stored_status (py "1") Scenario.two_rooms = Some 0
  ∧ stored_status (py "1") (monitor_cycle Demo.flaky Scenario.two_rooms).2 = Some 1.
Proof.
  split; [|split; vm_compute; reflexivity].
  apply (failed_fetch_keeps_room_state Demo.flaky Scenario.two_rooms (py "2")).
  intros i rc Hrc Hrid.
  assert (monitor_rooms Scenario.two_rooms
          = [RoomConfig (py "1") (py "G"); RoomConfig (py "2") (py "G")])
    as Hrooms by (vm_compute; reflexivity).
  rewrite Hrooms in Hrc.
  destruct i as [|[|i]]; simpl in Hrc; [| |done].
  - injection Hrc as <-. exfalso. revert Hrid.
    apply (bool_decide_unpack _). vm_compute. exact I.
  - vm_compute. reflexivity.
Defined.

(** ** The notification buffer *)

(** C5 (amended). A drain for a group removes and returns exactly the
    messages buffered for that group, room after room in the order of the
    room dict and, within a room, in the order in which they were stored
    (three messages stored for the group on one room come out as stored);
    the messages of the other groups stay; a second drain right after
    returns nothing and changes nothing.  A message stored on a room is
    placed after that room's earlier messages and before the messages of
    the rooms later in the dict. *)
Theorem drain_returns_pending (gid : pystr) (st : plugin) :
  let out := (drain gid st).1 in
  let st' := (drain gid st).2 in
  out = pending_for gid (room_status st)
  ∧ pending_for gid (room_status st') = []
  ∧ (∀ g, g ≠ gid →
       pending_for g (room_status st') = pending_for g (room_status st))
  ∧ drain gid st' = ([], st')
  ∧ (∀ rs1 rid ri rs2 n,
       room_status st = rs1 ++ (rid, ri) :: rs2 → rid ∉ Dict.keys rs1 →
       target_group n = gid →
       pending_for gid (Dict.update rid (append_notification n) (room_status st))
       = pending_for gid rs1 ++ (room_messages gid ri ++ [message n])
           ++ pending_for gid rs2)
  ∧ (∀ rid ri m1 m2 m3,
       room_status st = [(rid, ri)] → room_messages gid ri = [] →
       let enqueue m := Dict.update rid (append_notification (Notification m gid)) in
       pending_for gid (enqueue m3 (enqueue m2 (enqueue m1 (room_status st))))
       = [m1; m2; m3]).
Proof.
  intros out st'. subst out st'. rewrite drain_eq. cbn [fst snd].
  split_and!.
  - done.
  - cbn [room_status]. rewrite pending_for_drained. by rewrite decide_True.
  - intros g Hg. cbn [room_status]. rewrite pending_for_drained.
    by rewrite decide_False.
  - rewrite drain_eq. cbn [room_status monitor_rooms anchor_names http_log].
    rewrite pending_for_drained, decide_True by done.
    by rewrite drained_twice.
  - intros rs1 rid ri rs2 n -> Hfresh Hn.
    rewrite update_middle by done.
    rewrite !pending_for_app.
    change (pending_for gid ((rid, append_notification n ri) :: rs2))
      with (room_messages gid (append_notification n ri) ++ pending_for gid rs2).
    rewrite room_messages_append, decide_True by done.
    by rewrite <- !app_assoc.
  - intros rid ri m1 m2 m3 -> Hempty.
    repeat (cbn [Dict.update]; rewrite decide_True by done).
    unfold pending_for. cbn [fmap list_fmap concat snd].
    rewrite !room_messages_append, Hempty. cbn [target_group message].
    rewrite !decide_True by done. by rewrite app_nil_r.
Qed.

(** Three messages stored for ["G"] on room ["1"] come out in that order,
    and a drain of ["G"] leaves the messages of ["H"] where they are. *)
Lemma drain_returns_pending_witness :
  pending_for (py "G")
    (Dict.update (py "1") (append_notification (Notification (py "c") (py "G")))
       (Dict.update (py "1") (append_notification (Notification (py "b") (py "G")))
          (Dict.update (py "1") (append_notification (Notification (py "a") (py "G")))
             (room_status Scenario.one_empty_room))))
  = [py "a"; py "b"; py "c"]
  ∧ pending_for (py "H") (room_status (drain (py "G") Scenario.one_empty_room).2)
    = pending_for (py "H") (room_status Scenario.one_empty_room).
Proof.
  destruct (drain_returns_pending (py "G") Scenario.one_empty_room)
    as (_ & _ & Hother & _ & _ & Hfifo).
  split.
  - apply (Hfifo (py "1") fresh_room_info); reflexivity.
  - apply Hother. apply (bool_decide_unpack _). vm_compute. exact I.
Defined.

(** Two rooms notify the same group; room ["2"] goes live one cycle before
    room ["1"], so its message is stored first, but the drain returns the
    message of room ["1"] first. *)
Lemma drain_not_in_enqueue_order :
  enqueued_for (py "G") (parse_room_configs (py "1:G,2:G"))
    (monitor_task Demo.staggered 3 (init (py "1:G,2:G"))).1
  = [transition_message true (py "up") (py "2");
     transition_message true (py "up") (py "1")]
  ∧ (drain (py "G") (monitor_task Demo.staggered 3 (init (py "1:G,2:G"))).2).1
    = [transition_message true (py "up") (py "1");
       transition_message true (py "up") (py "2")]
  ∧ ¬ drains_in_enqueue_order Demo.staggered (py "1:G,2:G") 3 (py "G").
Proof.
  split_and!; [vm_compute; reflexivity | vm_compute; reflexivity |].
  unfold drains_in_enqueue_order. intros Hspec.
  vm_compute in Hspec. discriminate Hspec.
Qed.

(** ** The anchor names *)

(** C2 (amended). Resolving the anchor name of a room sends one request
    to the room-info endpoint on every call, whether or not a name is
    cached for the room; when the answer is a success the fetched name is
    stored in the cache and returned; otherwise the fallback ["主播" +
    room_id] is returned and the cache is left as it was. *)
Theorem get_anchor_info_always_fetches (w : world) (rid : pystr) (st : plugin) :
  let answer := room_info_api w (length (http_log st)) rid in
  let outcome := get_anchor_info w rid st in
  http_log outcome.2 = http_log st ++ [GetRoomInfo rid]
  ∧ room_status outcome.2 = room_status st
  ∧ monitor_rooms outcome.2 = monitor_rooms st
  ∧ match fetched_name answer with
    | Some name =>
        outcome.1 = name ∧ anchor_names outcome.2 = <[rid:=name]> (anchor_names st)
    | None =>
        outcome.1 = py "主播" ++ rid ∧ anchor_names outcome.2 = anchor_names st
    end.
Proof.
  intros answer outcome. subst outcome. rewrite get_anchor_info_eq.
  fold answer. cbn [fst snd http_log room_status monitor_rooms anchor_names].
  split_and!; [done..|]. by destruct (fetched_name answer).
Qed.

(** With ["old"] cached for room ["1"] and the endpoint now serving
    ["up"], resolving sends a request and returns ["up"]; and when nothing
    answers and nothing is cached, the fallback is returned but not
    stored. *)
Lemma anchor_name_not_resolved_through_cache :
  anchor_names Scenario.name_cached !! py "1" = Some (py "old")
  ∧ get_anchor_info (Demo.goes_live 0) (py "1") Scenario.name_cached
    = (py "up", Plugin [] [] {[ py "1" := py "up" ]} [GetRoomInfo (py "1")])
  ∧ ¬ resolves_through_cache (Demo.goes_live 0) (py "1") Scenario.name_cached
  ∧ (get_anchor_info Demo.unreachable (py "1") (init (py "1:A"))).1
    = py "主播" ++ py "1"
  ∧ anchor_names (get_anchor_info Demo.unreachable (py "1") (init (py "1:A"))).2
      !! py "1" = None
  ∧ ¬ resolves_through_cache Demo.unreachable (py "1") (init (py "1:A")).
Proof.
  assert (get_anchor_info (Demo.goes_live 0) (py "1") Scenario.name_cached
          = (py "up", Plugin [] [] {[ py "1" := py "up" ]} [GetRoomInfo (py "1")]))
    as Hrun.
  { rewrite get_anchor_info_eq. simpl. unfold Scenario.name_cached. simpl.
    by rewrite insert_singleton_eq. }
  split_and!.
  - apply lookup_singleton_eq.
  - exact Hrun.
  - intros [Hhit _]. specialize (Hhit (py "old") (lookup_singleton_eq _ _)).
    rewrite Hrun in Hhit. injection Hhit as Hname _.
    vm_compute in Hname. discriminate Hname.
  - reflexivity.
  - rewrite get_anchor_info_eq. simpl. apply lookup_empty.
  - intros [_ Hmiss]. specialize (Hmiss (lookup_empty _)).
    rewrite get_anchor_info_eq in Hmiss. simpl in Hmiss.
    by rewrite lookup_empty in Hmiss.
Qed.

(** ** Reports *)

(** C8. When the status fetch of [get_live_info] fails, whatever the
    plugin has stored and in particular without any entry for the room,
    the result is the report "直播间 <room_id>：无法获取直播信息", which is one line
    when the room id is; nothing but the request log changes. *)
Theorem get_live_info_unavailable (w : world) (rid : pystr) (st : plugin) :
  (check_live_status w rid st).1 = None →
  (get_live_info w rid st).1 = py "直播间 " ++ rid ++ py "：无法获取直播信息"
  ∧ (10%N ∉ rid → 10%N ∉ (get_live_info w rid st).1)
  ∧ (get_live_info w rid st).2 = logged [GetLiveStatus rid] st.
Proof.
  intros Hfail.
  assert ((get_live_info w rid st).1 = py "直播间 " ++ rid ++ py "：无法获取直播信息") as Hrep.
  { unfold get_live_info. unfold bind at 1.
    destruct (check_live_status w rid st) as [[res|] st1]; [done|done]. }
  split_and!; [done | | apply get_live_info_state].
  rewrite Hrep. intros Hrid.
  rewrite !not_elem_of_app. split_and!; [|done|].
  - apply (bool_decide_unpack _). vm_compute. exact I.
  - apply (bool_decide_unpack _). vm_compute. exact I.
Qed.

(** Nothing answers and the plugin has just been created, so no room has
    an entry: the report for room ["7"] is the unavailable line. *)
Lemma get_live_info_unavailable_witness :
  room_status (init (py "7:G")) = []
  ∧ (get_live_info Demo.unreachable (py "7") (init (py "7:G"))).1
    = py "直播间 " ++ py "7" ++ py "：无法获取直播信息".
Proof.
  split; [reflexivity|].
  apply (get_live_info_unavailable Demo.unreachable (py "7") (init (py "7:G"))).
  vm_compute. reflexivity.
Defined.

(** C9 (amended). The handler first drains the pending notifications of
    the sending group and yields them.  When the text, once its
    surrounding white space is removed and it is put in lower case, is
    "liveinfo", it then asks a report for every registry entry of the
    group, in registry order, and yields one more reply: the header
    followed by the reports joined by line breaks, or the notice that the
    group has no room when there is no such entry.  For any other text it
    does nothing more than the drain, so it yields nothing when nothing is
    pending. *)
Theorem on_group_message_replies (w : world) (event : group_message) (st : plugin) :
  let gid := ev_group_id event in
  let pending := (drain gid st).1 in
  let st1 := (drain gid st).2 in
  let rids := room_id <$> filter (λ rc, group_id rc = gid) (monitor_rooms st) in
  let reports := (mapM (get_live_info w) rids st1).1 in
  let replies := (on_group_message w event st).1 in
  if decide (lower w (strip (message_str event)) = py "liveinfo") then
    length reports = length rids
    ∧ replies
      = pending
        ++ [match reports with
            | [] => py "该群没有配置监控的直播间"
            | _ => py "直播间状态" ++ nl ++ nl ++ times 61 20 ++ join nl reports
            end]
    ∧ (on_group_message w event st).2 = logged (GetLiveStatus <$> rids) st1
  else
    on_group_message w event st = drain gid st
    ∧ (pending = [] → replies = []).
Proof.
  intros gid pending st1 rids reports replies.
  subst replies. rewrite on_group_message_eq. fold gid rids.
  subst pending st1 reports. rewrite !drain_eq. cbn [fst snd].
  case_decide; cbn [fst snd].
  - split_and!; [apply reports_length | done | apply reports_state].
  - done.
Qed.

(** A text that is not the command, sent while nothing is pending, gets
    no reply. *)
Lemma on_group_message_replies_witness :
  (on_group_message (Demo.goes_live 0) (GroupMessage (py "A") (py "hello"))
     (init (py "1:A"))).1 = [].
Proof.
  pose proof (on_group_message_replies (Demo.goes_live 0)
                (GroupMessage (py "A") (py "hello")) (init (py "1:A"))) as H.
  cbv zeta in H.
  destruct (decide (lower (Demo.goes_live 0)
                      (strip (message_str (GroupMessage (py "A") (py "hello"))))
                    = py "liveinfo")) as [Heq|Hne].
  - exfalso. vm_compute in Heq. discriminate Heq.
  - destruct H as [_ H]. apply H. reflexivity.
Defined.

(** The text [" liveinfo"], with a space in front, is not a match for
    "liveinfo" in any case, and still gets the report as a reply. *)
Lemma padded_text_gets_report :
  Demo.ascii_lower (message_str Scenario.padded_command) ≠ py "liveinfo"
  ∧ (drain (py "A") (init (py "1:A"))).1 = []
  ∧ length (on_group_message (Demo.goes_live 0) Scenario.padded_command
              (init (py "1:A"))).1 = 1%nat
  ∧ ¬ other_text_only_drains (Demo.goes_live 0) Scenario.padded_command
        (init (py "1:A")).
Proof.
  assert (Demo.ascii_lower (message_str Scenario.padded_command) ≠ py "liveinfo")
    as Hother by (apply (bool_decide_unpack _); vm_compute; exact I).
  split_and!; [done | reflexivity | vm_compute; reflexivity |].
  unfold other_text_only_drains. intros Hspec.
  specialize (Hspec Hother).
  apply (f_equal (λ o, length o.1)) in Hspec.
  vm_compute in Hspec. discriminate Hspec.
Qed.

(** ** The scenario of the specification *)

(** Room ["123"] is polled three times: offline, live since 1700000000,
    offline again.  The first poll computes nothing, the second a
    transition to live that sets the start time and stores the message for
    the room's group, the third a transition to offline that clears the
    start time. *)
Example three_polls :
  option_map became_live <$> (Scenario.polled 3).1 = [None; Some true; Some false]
  ∧ stored_status (py "123") (Scenario.polled 1).2 = Some 0
  ∧ option_bind _ _ live_start_time
      (Dict.get (py "123") (room_status (Scenario.polled 2).2))
    = Some 1700000000000000
  ∧ pending_for (py "G") (room_status (Scenario.polled 2).2)
    = [transition_message true (py "up") (py "123")]
  ∧ option_bind _ _ live_start_time
      (Dict.get (py "123") (room_status (Scenario.polled 3).2))
    = None.
Proof. vm_compute. by split_and!. Qed.

Example py_decodes_utf8 : py "主播" = [20027; 25773]%N.
Proof. vm_compute. reflexivity. Qed.

Example parse_default_config :
  parse_room_configs (py "7857879:1044727986, 12 : 34 ,bad,1:2:3,")
  = [RoomConfig (py "7857879") (py "1044727986"); RoomConfig (py "12") (py "34");
     RoomConfig (py "1") (py "2:3")].
Proof. vm_compute. reflexivity. Qed.

(** The loop compares raw numbers: from 0 to 2 it stores the message of a
    stream that ended, though neither status is live. *)
Example raw_status_two :
  option_map tr_message <$>
    (process_results (Demo.goes_live 0)
       (as_results [Scenario.sample (py "1") 0; Scenario.sample (py "1") 2])
       (init (py "1:G"))).1
  = [None; Some (transition_message false (py "up") (py "1"))].
Proof. vm_compute. reflexivity. Qed.

(** * Further properties *)

(** ** The parser *)

Section ParserMore.

Implicit Types (s tok : pystr) (rc : room_config).

Lemma lstrip_head s :
  (∀ c, head s = Some c → is_space c = false) → lstrip s = s.
Proof.
  destruct s as [|c s]; [done|]. simpl. intros H.
  by rewrite (H c eq_refl).
Qed.

Lemma strip_trimmed s : trimmed s → strip s = s.
Proof.
  intros [Hhead Hlast]. unfold strip, rstrip.
  rewrite (lstrip_head s Hhead).
  rewrite lstrip_head; [apply reverse_involutive|].
  intros c. rewrite head_reverse. apply Hlast.
Qed.

Lemma join_cons_cons (sep p q : pystr) (l : list pystr) :
  join sep (p :: q :: l) = p ++ sep ++ join sep (q :: l).
Proof. done. Qed.

Lemma parse_one_token a b :
  colon ∉ a → comma ∉ a ++ colon :: b →
  parse_room_configs (a ++ colon :: b) = [RoomConfig (strip a) (strip b)].
Proof.
  intros Ha Hcomma. unfold parse_room_configs.
  rewrite split_no_sep by done. simpl. unfold parse_step.
  rewrite decide_True by set_solver. by rewrite split1_first.
Qed.

Lemma parse_token_without_colon tok :
  colon ∉ tok → comma ∉ tok → parse_room_configs tok = [].
Proof.
  intros Hcolon Hcomma. unfold parse_room_configs.
  rewrite split_no_sep by done. simpl. unfold parse_step.
  by rewrite decide_False.
Qed.

Lemma trim_of_elem raw t c : trim_of raw t → c ∈ t → c ∈ raw.
Proof. intros (l & r & -> & _) Hc. set_solver. Qed.

Lemma token_config_ids tok rc :
  comma ∉ tok → token_config tok = Some rc →
  (colon ∉ room_id rc) ∧ (comma ∉ room_id rc) ∧ (comma ∉ group_id rc)
  ∧ trimmed (room_id rc) ∧ trimmed (group_id rc).
Proof.
  intros Hcomma. unfold token_config. case_decide as Hc; [|done].
  destruct (split1_two _ _ Hc) as (a & b & -> & Htok & Ha).
  intros [= <-]. simpl. subst tok.
  pose proof (strip_trim_of a) as Hta. pose proof (strip_trim_of b) as Htb.
  split_and!.
  - intros Hin. apply Ha. by eapply trim_of_elem.
  - intros Hin. apply Hcomma. apply elem_of_app. left. by eapply trim_of_elem.
  - intros Hin. apply Hcomma. apply elem_of_app. right. right.
    by eapply trim_of_elem.
  - by destruct Hta as (? & ? & _ & _ & _ & ?).
  - by destruct Htb as (? & ? & _ & _ & _ & ?).
Qed.

End ParserMore.

(** X1. Parsing distributes over the comma: the registry of
    [s1,s2] is the registry of [s1] followed by the registry of [s2].  So
    a comma at either end, a doubled comma or a piece without [':'] adds
    nothing. *)
Theorem parse_room_configs_concat (s1 s2 junk : pystr) :
  parse_room_configs (s1 ++ comma :: s2)
  = parse_room_configs s1 ++ parse_room_configs s2
  ∧ parse_room_configs (s1 ++ [comma]) = parse_room_configs s1
  ∧ parse_room_configs (comma :: s1) = parse_room_configs s1
  ∧ (colon ∉ junk → comma ∉ junk →
     parse_room_configs (s1 ++ comma :: junk ++ comma :: s2)
     = parse_room_configs s1 ++ parse_room_configs s2).
Proof.
  split_and!.
  - apply parse_room_configs_app.
  - rewrite parse_room_configs_app. apply app_nil_r.
  - exact (parse_room_configs_app [] s1).
  - intros Hcolon Hcomma.
    rewrite !parse_room_configs_app.
    by rewrite (parse_token_without_colon junk).
Qed.

(** The piece ["bad"] between two entries is dropped. *)
Lemma parse_room_configs_concat_witness :
  parse_room_configs (py "1:A" ++ comma :: py "bad" ++ comma :: py "2:B")
  = parse_room_configs (py "1:A") ++ parse_room_configs (py "2:B").
Proof.
  apply (parse_room_configs_concat (py "1:A") (py "2:B") (py "bad"));
    apply (bool_decide_unpack _); vm_compute; exact I.
Defined.

(** X2. Every entry of a parsed registry has a room id without [':']
    and without [','], a group id without [','], and neither id starts or
    ends with white space. *)
Theorem parsed_ids_are_plain (room_configs : pystr) :
  Forall plain_entry (parse_room_configs room_configs).
Proof.
  unfold parse_room_configs. rewrite foldl_parse_step. simpl.
  pose proof (split_tokens_no_sep comma room_configs) as Htoks.
  induction Htoks as [|tok toks Htok Htoks IH]; simpl; [constructor|].
  destruct (token_config tok) as [rc|] eqn:Hrc; [|done].
  constructor; [|done].
  destruct (token_config_ids tok rc Htok Hrc) as (? & ? & ? & ? & ?).
  unfold plain_entry. by split_and!.
Qed.

(** X3. Writing a registry of plain entries as text and parsing the text
    gives the registry back. *)
Theorem parse_render_config (rooms : list room_config) :
  Forall plain_entry rooms → parse_room_configs (render_config rooms) = rooms.
Proof.
  unfold render_config.
  induction 1 as [|rc rooms Hrc Hrooms IH]; [done|].
  destruct Hrc as (Hr & Hg & Hcolon & Hcomma_r & Hcomma_g).
  assert (parse_room_configs (room_id rc ++ colon :: group_id rc) = [rc]) as Hone.
  { rewrite parse_one_token.
    - rewrite !strip_trimmed by done. by destruct rc.
    - done.
    - rewrite not_elem_of_app, not_elem_of_cons. by split_and!. }
  destruct rooms as [|rc' rooms]; [done|].
  rewrite !fmap_cons, join_cons_cons. cbn [app].
  rewrite parse_room_configs_app, Hone.
  simpl. f_equal. apply IH.
Qed.

(** The registry of rooms ["1"] and ["22"] survives the round trip. *)
Lemma parse_render_config_witness :
  parse_room_configs
    (render_config [RoomConfig (py "1") (py "A"); RoomConfig (py "22") (py "B:C")])
  = [RoomConfig (py "1") (py "A"); RoomConfig (py "22") (py "B:C")].
Proof.
  apply (parse_render_config
           [RoomConfig (py "1") (py "A"); RoomConfig (py "22") (py "B:C")]).
  repeat constructor; simpl;
    try (intros c [= <-]; vm_compute; reflexivity);
    apply (bool_decide_unpack _); vm_compute; exact I.
Defined.

(** ** The room dict *)

Section DictMore.

Context {V : Type}.
Implicit Types (k : pystr) (d : Dict.t V).

Lemma keys_update k (f : V → V) d : Dict.keys (Dict.update k f d) = Dict.keys d.
Proof.
  unfold Dict.keys. induction d as [|[k' v] d IH]; simpl; [done|].
  case_decide; simpl; [done|]. f_equal. apply IH.
Qed.

Lemma get_None_keys k d : Dict.get k d = None ↔ k ∉ Dict.keys d.
Proof.
  unfold Dict.keys. induction d as [|[k' v] d IH]; simpl.
  - split; [intros _; apply not_elem_of_nil | done].
  - rewrite not_elem_of_cons. case_decide; [|tauto].
    split; [done|]. by intros [? _].
Qed.

Lemma keys_set_new k (v : V) d :
  Dict.get k d = None → Dict.keys (Dict.set k v d) = Dict.keys d ++ [k].
Proof.
  unfold Dict.keys. induction d as [|[k' v'] d IH]; simpl; [done|].
  case_decide; [done|]. intros Hget. simpl. f_equal. by apply IH.
Qed.

Lemma update_update k (f g : V → V) d :
  Dict.update k f (Dict.update k g d) = Dict.update k (f ∘ g) d.
Proof.
  induction d as [|[k' v] d IH]; simpl; [done|].
  case_decide; simpl.
  - by rewrite decide_True.
  - rewrite decide_False by done. by rewrite IH.
Qed.

Lemma update_ext k (f g : V → V) d v :
  Dict.get k d = Some v → f v = g v → Dict.update k f d = Dict.update k g d.
Proof.
  induction d as [|[k' v'] d IH]; simpl; [done|].
  case_decide.
  - intros [= ->] Hfg. by rewrite Hfg.
  - intros Hget Hfg. by rewrite IH.
Qed.

Lemma update_same k (f : V → V) d v :
  Dict.get k d = Some v → f v = v → Dict.update k f d = d.
Proof.
  induction d as [|[k' v'] d IH]; simpl; [done|].
  case_decide.
  - intros [= ->] Hf. by rewrite Hf.
  - intros Hget Hf. by rewrite IH.
Qed.

Lemma get_elem_of k d v : Dict.get k d = Some v → (k, v) ∈ d.
Proof.
  induction d as [|[k' v'] d IH]; simpl; [done|].
  case_decide.
  - intros [= ->]. subst. by left.
  - intros Hget. right. by apply IH.
Qed.

End DictMore.

Lemma keys_ensure_room rid rs :
  Dict.keys (ensure_room rid rs)
  = if decide (rid ∈ Dict.keys rs) then Dict.keys rs else Dict.keys rs ++ [rid].
Proof.
  unfold ensure_room. destruct (Dict.get rid rs) as [ri|] eqn:E.
  - rewrite decide_True; [done|].
    destruct (decide (rid ∈ Dict.keys rs)) as [|Hn]; [done|].
    apply get_None_keys in Hn. congruence.
  - rewrite keys_set_new by done.
    rewrite decide_False; [done|]. by apply get_None_keys.
Qed.

(** ** One turn of the loop, as a change of the dict *)

Section Shape.

Context (w : world).
Implicit Types (st : plugin) (res : status_result) (rid : pystr).

(** A sample changes the room dict by creating the room's entry if it is
    missing and rewriting that one entry. *)
Lemma process_result_shape res st :
  let rid := res_room_id res in
  ∃ f, room_status (process_result w (Returned (Some res)) st).2
       = Dict.update rid f (ensure_room rid (room_status st)).
Proof.
  intros rid.
  assert (∀ rs : Dict.t room_info, ∃ f, rs = Dict.update rid f rs) as Hid.
  { intros rs. exists id. induction rs as [|[k v] rs IH]; simpl; [done|].
    case_decide; [done|]. by rewrite <- IH. }
  rewrite process_result_eq. unfold loop_body. unfold_MX.
  fold rid. fold (ensure_room rid (room_status st)).
  rewrite get_ensure_room. simpl.
  destruct (last_status _) as [prev|].
  - destruct (decide (live_status (res_data res) ≠ prev)).
    + rewrite !get_anchor_info_eq. simpl.
      destruct (decide (live_status (res_data res) = 1)); simpl;
        [destruct (fromtimestamp w _); simpl; [|apply Hid]|];
        (destruct (find_target_group rid (monitor_rooms st)) as [g|];
         [destruct (truthy g)|]);
        simpl; rewrite !update_update; by eexists.
    + simpl. by eexists.
  - destruct (decide (live_status (res_data res) = 1)); simpl;
      [destruct (fromtimestamp w _); simpl|];
      rewrite ?update_update; by eexists.
Qed.

Lemma process_result_keys r st :
  Dict.keys (room_status st) `prefix_of` Dict.keys (room_status (process_result w r st).2)
  ∧ (NoDup (Dict.keys (room_status st)) →
     NoDup (Dict.keys (room_status (process_result w r st).2)))
  ∧ ∀ rid, rid ∈ Dict.keys (room_status (process_result w r st).2) →
           rid ∈ Dict.keys (room_status st)
           ∨ ∃ res, r = Returned (Some res) ∧ rid = res_room_id res.
Proof.
  destruct r as [|[res|]]; [by split_and!; [|done|left] | | by split_and!; [|done|left]].
  destruct (process_result_shape res st) as [f ->].
  rewrite keys_update, keys_ensure_room.
  case_decide as Hin; [by split_and!; [|done|left]|].
  split_and!.
  - by apply prefix_app_r.
  - intros Hnd. apply NoDup_app. split_and!; [done | | apply NoDup_singleton].
    intros x Hx Hx'. apply list_elem_of_singleton in Hx'. by subst x.
  - intros rid [?|Hrid]%elem_of_app; [by left|].
    apply list_elem_of_singleton in Hrid. right. by exists res.
Qed.

Lemma process_result_rooms r st :
  monitor_rooms (process_result w r st).2 = monitor_rooms st.
Proof.
  destruct r as [|[res|]]; [done| |done].
  by destruct (process_result_sample w res st) as (ev & st' & new & -> & ? & _).
Qed.

(** A sample that is not refused does not make the turn raise. *)
Lemma accepted_no_raise r st :
  converts w (Sample r) → raises w r st = false.
Proof.
  destruct r as [|[res|]]; [done| |done]. simpl. intros Hacc.
  destruct (process_result_sample w res st)
    as (ev & st' & new & _ & _ & _ & _ & -> & _).
  apply bool_decide_eq_false_2. by intros [? _].
Qed.

(** The requests and the cache after a turn of the loop: a turn that
    runs to its end has asked for the anchor's name exactly when it has
    computed a transition; a turn that raises is a turn on a refused
    sample, and may have asked for the name before. *)
Lemma process_result_log r st :
  ∃ reqs,
    http_log (process_result w r st).2 = http_log st ++ reqs
    ∧ (∀ rid name,
         anchor_names (process_result w r st).2 !! rid = Some name →
         anchor_names st !! rid = Some name ∨ GetRoomInfo rid ∈ reqs)
    ∧ if raises w r st then
        (process_result w r st).1 = None
        ∧ ∃ res, r = Returned (Some res) ∧ refused w res
                 ∧ (reqs = [] ∨ reqs = [GetRoomInfo (res_room_id res)])
      else reqs = anchor_requests [(process_result w r st).1].
Proof.
  destruct r as [|[res|]];
    [exists []; by split_and!; [simpl; rewrite app_nil_r | left |] |
     | exists []; by split_and!; [simpl; rewrite app_nil_r | left |]].
  destruct (process_result_sample w res st)
    as (ev & st' & new & -> & _ & _ & _ & -> & Hcase).
  cbn [fst snd].
  assert (∀ rid name,
            anchor_names (get_anchor_info w (res_room_id res) st).2 !! rid = Some name →
            anchor_names st !! rid = Some name
            ∨ GetRoomInfo rid ∈ [GetRoomInfo (res_room_id res)]) as Hnames.
  { rewrite get_anchor_info_eq. simpl. intros rid name.
    destruct (fetched_name _) as [n|]; [|by left].
    destruct (decide (rid = res_room_id res)) as [->|Hne].
    - intros _. right. by left.
    - rewrite lookup_insert_ne by done. by left. }
  destruct (last_status _) as [prev|].
  - destruct (decide (live_status (res_data res) = prev)) as [Heq|Hne].
    + destruct Hcase as (-> & -> & _). exists []. cbn [http_log anchor_names].
      rewrite bool_decide_eq_false_2 by (intros [_ ?]; congruence).
      split_and!; [by rewrite app_nil_r | by left | done].
    + destruct Hcase as [-> Hcase]. exists [GetRoomInfo (res_room_id res)].
      cbn [http_log anchor_names].
      split_and!; [by rewrite get_anchor_info_eq | done |].
      destruct (decide (refused w res)) as [Hr|Hr].
      * destruct Hcase as [-> _].
        rewrite bool_decide_eq_true_2 by (split; [done|congruence]).
        split; [done|]. exists res. split_and!; [done..|by right].
      * destruct Hcase as [-> _].
        rewrite bool_decide_eq_false_2 by (by intros [? _]). done.
  - destruct Hcase as (-> & -> & _). exists []. cbn [http_log anchor_names].
    split_and!; [by rewrite app_nil_r | by left |].
    case_bool_decide as Hr; [|done].
    split; [done|]. exists res. split_and!; [done| by destruct Hr | by left].
Qed.

End Shape.

(** ** What every action keeps *)

Section Actions.

Context (w : world).
Implicit Types (st : plugin) (res : status_result) (rid gid : pystr).

Lemma mapM_length {A B} (f : A → M B) l st : length (mapM f l st).1 = length l.
Proof.
  revert st. induction l as [|a l IH]; intros st; [done|].
  rewrite mapM_cons. cbn [fst length]. by rewrite IH.
Qed.

Lemma on_group_message_state event st :
  let gid := ev_group_id event in
  let rids := room_id <$> filter (λ rc, group_id rc = gid) (monitor_rooms st) in
  (on_group_message w event st).2
  = logged (if decide (lower w (strip (message_str event)) = py "liveinfo")
            then GetLiveStatus <$> rids else [])
      (Plugin (monitor_rooms st) (drained gid (room_status st))
         (anchor_names st) (http_log st)).
Proof.
  intros gid rids. rewrite on_group_message_eq. fold gid rids.
  rewrite drain_eq. cbn [fst snd].
  case_decide; cbn [snd].
  - apply reports_state.
  - by rewrite logged_nil.
Qed.

Lemma keys_drained gid rs : Dict.keys (drained gid rs) = Dict.keys rs.
Proof.
  unfold Dict.keys, drained. rewrite <- list_fmap_compose.
  by apply list_fmap_ext.
Qed.

Lemma gathered_rooms rooms st res :
  Returned (Some res) ∈ (gather_status w rooms st).1 →
  ∃ rc, rc ∈ rooms ∧ res_room_id res = room_id rc.
Proof.
  intros [i Hi]%list_elem_of_lookup. rewrite gather_status_lookup in Hi.
  destruct (rooms !! i) as [rc|] eqn:Hrc; [|done].
  simpl in Hi. injection Hi as Hi. exists rc. split.
  - by eapply list_elem_of_lookup_2.
  - by eapply check_live_status_room.
Qed.

Lemma perform_rooms a st : monitor_rooms (perform w a st) = monitor_rooms st.
Proof.
  destruct a as [|r|event]; simpl.
  - rewrite monitor_cycle_eq.
    apply (process_results_invariant w
             (λ s, monitor_rooms s = monitor_rooms st)).
    + intros r s Hs. by rewrite process_result_rooms.
    + by rewrite gather_status_state.
  - apply process_result_rooms.
  - by rewrite on_group_message_state.
Qed.

Lemma perform_all_rooms acts st :
  monitor_rooms (perform_all w acts st) = monitor_rooms st.
Proof.
  unfold perform_all. revert st.
  induction acts as [|a acts IH]; intros st; [done|].
  simpl. by rewrite IH, perform_rooms.
Qed.

Lemma perform_all_app acts1 acts2 st :
  perform_all w (acts1 ++ acts2) st = perform_all w acts2 (perform_all w acts1 st).
Proof. unfold perform_all. by rewrite foldl_app. Qed.

(** Keys of the room dict: kept in place, distinct, and created only for
    the room of a sample. *)
Lemma process_results_keys results st :
  Dict.keys (room_status st)
    `prefix_of` Dict.keys (room_status (process_results w results st).2)
  ∧ (NoDup (Dict.keys (room_status st)) →
     NoDup (Dict.keys (room_status (process_results w results st).2)))
  ∧ ∀ rid, rid ∈ Dict.keys (room_status (process_results w results st).2) →
           rid ∈ Dict.keys (room_status st)
           ∨ ∃ res, Returned (Some res) ∈ results ∧ rid = res_room_id res.
Proof.
  revert st.
  induction results as [|r results IH]; intros st.
  - split_and!; [done | done | by left].
  - rewrite process_results_cons.
    destruct (process_result_keys w r st) as (Hp & Hn & Hk).
    destruct (IH (process_result w r st).2) as (Hp' & Hn' & Hk').
    destruct (raises w r st); cbn [fst snd].
    + split_and!; [done..|].
      intros rid [?|(res & -> & ->)]%Hk; [by left|].
      right. exists res. split; [by left|done].
    + split_and!.
      * by etrans.
      * intros Hnd. by apply Hn', Hn.
      * intros rid [Hin|(res & Hres & ->)]%Hk'.
        -- apply Hk in Hin as [?|(res & -> & ->)]; [by left|].
           right. exists res. split; [by left|done].
        -- right. exists res. split; [by right|done].
Qed.

Lemma perform_keys a st :
  Dict.keys (room_status st) `prefix_of` Dict.keys (room_status (perform w a st))
  ∧ (NoDup (Dict.keys (room_status st)) →
     NoDup (Dict.keys (room_status (perform w a st))))
  ∧ (own_action a →
     ∀ rid, rid ∈ Dict.keys (room_status (perform w a st)) →
            rid ∈ Dict.keys (room_status st)
            ∨ ∃ rc, rc ∈ monitor_rooms st ∧ room_id rc = rid).
Proof.
  destruct a as [|r|event]; simpl.
  - rewrite monitor_cycle_eq.
    destruct (process_results_keys (gather_status w (monitor_rooms st) st).1
                (gather_status w (monitor_rooms st) st).2) as (Hp & Hn & Hk).
    rewrite gather_status_state in Hp, Hn, Hk. simpl in Hp, Hn, Hk.
    rewrite gather_status_state.
    split_and!; [done..|].
    intros _ rid [?|(res & Hres & ->)]%Hk; [by left|].
    right. apply gathered_rooms in Hres as (rc & ? & ?). by exists rc.
  - destruct (process_result_keys w r st) as (Hp & Hn & _).
    by split_and!.
  - rewrite on_group_message_state. simpl. rewrite keys_drained.
    split_and!; [done | done | by left].
Qed.

Lemma perform_all_nodup acts st :
  NoDup (Dict.keys (room_status st)) →
  NoDup (Dict.keys (room_status (perform_all w acts st))).
Proof.
  unfold perform_all. revert st.
  induction acts as [|a acts IH]; intros s Hs; [done|].
  simpl. apply IH. by apply perform_keys.
Qed.

End Actions.

(** X4. The registry is fixed at start-up: after any monitor cycles, loop
    turns and group messages it is still what the configuration text
    parses to. *)
Theorem registry_never_changes
    (w : world) (room_configs : pystr) (acts : list action) :
  monitor_rooms (perform_all w acts (init room_configs))
  = parse_room_configs room_configs.
Proof. by rewrite perform_all_rooms. Qed.

(** X5. Room entries are created, never removed, never reordered and
    never duplicated: the room ids of the dict are distinct and stay a
    prefix of the later ones; and as long as the plugin only runs its own
    cycles and handles messages, every room id of the dict is a room id of
    the registry. *)
Theorem room_entries_only_grow
    (w : world) (room_configs : pystr) (acts more : list action) :
  let st := perform_all w acts (init room_configs) in
  NoDup (Dict.keys (room_status st))
  ∧ Dict.keys (room_status st)
      `prefix_of` Dict.keys (room_status (perform_all w more st))
  ∧ (Forall own_action acts →
     ∀ rid, rid ∈ Dict.keys (room_status st) →
            ∃ rc, rc ∈ parse_room_configs room_configs ∧ room_id rc = rid).
Proof.
  intros st. split_and!.
  - subst st. apply perform_all_nodup. simpl. constructor.
  - generalize st. clear. unfold perform_all.
    induction more as [|a more IH]; intros s; [done|].
    simpl. etrans; [|apply IH]. apply perform_keys.
  - subst st. intros Hown.
    assert (∀ s, (∀ rid, rid ∈ Dict.keys (room_status s) →
                         ∃ rc, rc ∈ monitor_rooms s ∧ room_id rc = rid) →
                 ∀ rid, rid ∈ Dict.keys (room_status (perform_all w acts s)) →
                        ∃ rc, rc ∈ monitor_rooms s ∧ room_id rc = rid) as H.
    { unfold perform_all.
      induction Hown as [|a acts Ha Hown IH]; intros s Hs; [done|].
      simpl. intros rid Hrid.
      rewrite <- (perform_rooms w a s). apply (IH (perform w a s)); [|done].
      intros rid' Hrid'. rewrite perform_rooms.
      destruct (perform_keys w a s) as (_ & _ & Hk).
      destruct (Hk Ha rid' Hrid') as [?|?]; [by apply Hs|done]. }
    apply (H (init room_configs)). simpl. by intros rid ?%elem_of_nil.
Qed.

(** After two cycles over rooms ["1"] and ["2"] the dict has these two
    room ids, both from the registry. *)
Lemma room_entries_only_grow_witness :
  ∃ rc, rc ∈ parse_room_configs (py "1:G,2:G") ∧ room_id rc = py "2".
Proof.
  destruct (room_entries_only_grow Demo.flaky (py "1:G,2:G") [Cycle; Cycle] [])
    as (_ & _ & H).
  apply H.
  - repeat constructor.
  - apply (bool_decide_unpack _). vm_compute. exact I.
Defined.

(** ** Notifications and their addressees *)

Section Addressing.

Context (w : world).
Implicit Types (st : plugin) (res : status_result) (rid gid : pystr).

Lemma find_target_group_Some rid rooms gid :
  find_target_group rid rooms = Some gid →
  ∃ rc, rc ∈ rooms ∧ room_id rc = rid ∧ group_id rc = gid.
Proof.
  unfold find_target_group.
  destruct (list_find _ rooms) as [[i rc]|] eqn:Hfind; [|done].
  simpl. intros [= <-].
  apply list_find_Some in Hfind as (Hi & Hrc & _).
  exists rc. split_and!; [|done..]. by eapply list_elem_of_lookup_2.
Qed.

Lemma truthy_nonempty (s : pystr) : truthy s = true ↔ s ≠ [].
Proof. by destruct s. Qed.

Lemma addressed_sample r st :
  addressed_to_first_entry st →
  addressed_to_first_entry (process_result w r st).2.
Proof.
  intros Hst. destruct r as [|[res|]]; [done| |done].
  destruct (process_result_sample w res st)
    as (ev & st' & new & -> & Hrooms & Hget & Hother & _ & Hcase).
  cbn [snd]. intros rid ri n. rewrite Hrooms.
  destruct (decide (rid = res_room_id res)) as [->|Hne].
  - rewrite Hget. intros [= <-] Hn.
    assert (∀ n, n ∈ default [] (notifications
                   (default fresh_room_info
                      (Dict.get (res_room_id res) (room_status st)))) →
                 find_target_group (res_room_id res) (monitor_rooms st)
                 = Some (target_group n) ∧ target_group n ≠ []) as Hold.
    { intros n'. destruct (Dict.get _ (room_status st)) as [old|] eqn:E; simpl.
      - by apply Hst.
      - by intros ?%elem_of_nil. }
    destruct (last_status _) as [prev|].
    + case_decide.
      * destruct Hcase as (_ & _ & Hn'). rewrite Hn' in Hn. by apply Hold.
      * destruct Hcase as [_ Hcase]. case_decide.
        -- destruct Hcase as [_ Hn']. rewrite Hn' in Hn. by apply Hold.
        -- destruct Hcase as (_ & _ & _ & _ & Hn'). rewrite Hn' in Hn.
           destruct (find_target_group _ _) as [g|] eqn:Hg; [|by apply Hold].
           destruct (truthy g) eqn:Ht; [|by apply Hold].
           simpl in Hn. apply elem_of_app in Hn as [Hn|Hn]; [by apply Hold|].
           apply list_elem_of_singleton in Hn. subst n. simpl.
           split; [done|]. by apply truthy_nonempty.
    + destruct Hcase as (_ & _ & _ & Hn' & _). rewrite Hn' in Hn. by apply Hold.
  - rewrite Hother by done. apply Hst.
Qed.

Lemma addressed_perform a st :
  addressed_to_first_entry st → addressed_to_first_entry (perform w a st).
Proof.
  intros Hst. destruct a as [|r|event]; simpl.
  - rewrite monitor_cycle_eq.
    apply process_results_invariant; [apply addressed_sample|].
    by rewrite gather_status_state.
  - by apply addressed_sample.
  - rewrite on_group_message_state. intros rid ri n. simpl.
    rewrite get_drained.
    destruct (Dict.get rid (room_status st)) as [old|] eqn:E; [|done].
    simpl. intros [= <-] Hn. apply (Hst rid old n E).
    unfold drained_info in Hn.
    destruct (notifications old) as [ns|] eqn:En; simpl in *; [|by rewrite En in Hn].
    by apply list_elem_of_filter in Hn as [_ ?].
Qed.

Lemma elem_of_concat {A} (x : A) (ls : list (list A)) :
  x ∈ concat ls ↔ ∃ l, x ∈ l ∧ l ∈ ls.
Proof.
  induction ls as [|l0 ls IH]; simpl.
  - split; [by intros ?%elem_of_nil | by intros (? & _ & ?%elem_of_nil)].
  - rewrite elem_of_app, IH. split.
    + intros [?|(l & ? & ?)]; [exists l0; split; [done|by left]|].
      exists l. split; [done|by right].
    + intros (l & Hx & [->|Hl]%elem_of_cons); [by left|]. right. by exists l.
Qed.

Lemma pending_for_elem gid rs m :
  m ∈ pending_for gid rs →
  ∃ rid ri n, (rid, ri) ∈ rs ∧ n ∈ default [] (notifications ri)
              ∧ target_group n = gid ∧ message n = m.
Proof.
  unfold pending_for. intros Hm.
  apply elem_of_concat in Hm as (l & Hm & Hl).
  apply list_elem_of_fmap in Hl as ([rid ri] & -> & Hri).
  unfold room_messages in Hm. simpl in Hm.
  apply list_elem_of_fmap in Hm as (n & -> & Hn).
  apply list_elem_of_filter in Hn as [Hg Hn].
  by exists rid, ri, n.
Qed.

Lemma elem_pending_for gid rs rid ri n :
  Dict.get rid rs = Some ri → n ∈ default [] (notifications ri) →
  target_group n = gid → message n ∈ pending_for gid rs.
Proof.
  intros Hget Hn Hg. unfold pending_for.
  apply elem_of_concat. exists (room_messages gid ri). split.
  - unfold room_messages. apply list_elem_of_fmap. exists n. split; [done|].
    by apply list_elem_of_filter.
  - apply list_elem_of_fmap. exists (rid, ri). split; [done|].
    by apply get_elem_of.
Qed.

End Addressing.

Section Delivery.

Context (w : world).
Implicit Types (st : plugin) (res : status_result) (rid gid : pystr).

Lemma elem_of_get {V} (k : pystr) (v : V) (d : Dict.t V) :
  NoDup (Dict.keys d) → (k, v) ∈ d → Dict.get k d = Some v.
Proof.
  unfold Dict.keys. induction d as [|[k' v'] d IH]; simpl.
  - by intros _ ?%elem_of_nil.
  - intros [Hk Hd]%NoDup_cons [[= -> ->]|Hin]%elem_of_cons.
    + by rewrite decide_True.
    + case_decide as Heq; [|by apply IH]. subst k'. exfalso. apply Hk.
      apply list_elem_of_fmap. by exists (k, v).
Qed.

Lemma addressed_perform_all acts st :
  addressed_to_first_entry st → addressed_to_first_entry (perform_all w acts st).
Proof.
  unfold perform_all. revert st.
  induction acts as [|a acts IH]; intros st Hst; [done|].
  simpl. by apply IH, addressed_perform.
Qed.

Lemma notifications_of_cons rid gid ev evs :
  notifications_of rid gid (ev :: evs)
  = notifications_of rid gid [ev] ++ notifications_of rid gid evs.
Proof.
  unfold notifications_of, transitions.
  destruct ev as [ev|]; simpl; [|done].
  rewrite !filter_cons. case_decide; [|done]. by rewrite filter_nil.
Qed.

Lemma anchor_requests_cons ev evs :
  anchor_requests (ev :: evs) = anchor_requests [ev] ++ anchor_requests evs.
Proof. unfold anchor_requests, transitions. by destruct ev. Qed.

Lemma room_pending_old rid st :
  room_pending rid st
  = default [] (notifications
                  (default fresh_room_info (Dict.get rid (room_status st)))).
Proof. unfold room_pending. by destruct (Dict.get rid (room_status st)). Qed.

(** The notifications of a room after one turn of the loop. *)
Lemma room_pending_step r st rid :
  room_pending rid (process_result w r st).2
  = room_pending rid st
    ++ match find_target_group rid (monitor_rooms st) with
       | Some g => if truthy g
                   then notifications_of rid g [(process_result w r st).1] else []
       | None => []
       end.
Proof.
  assert (∀ l : list notification,
            l = l ++ match find_target_group rid (monitor_rooms st) with
                     | Some g => if truthy g then notifications_of rid g [None] else []
                     | None => []
                     end) as Hnone.
  { intros l. destruct (find_target_group _ _) as [g|]; [destruct (truthy g)|];
      by rewrite app_nil_r. }
  destruct r as [|[res|]]; [apply Hnone| |apply Hnone].
  destruct (decide (rid = res_room_id res)) as [->|Hne].
  - destruct (process_result_sample w res st)
      as (ev & st' & new & -> & _ & Hget & _ & _ & Hcase).
    cbn [fst snd]. rewrite (room_pending_old _ st).
    unfold room_pending. rewrite Hget. simpl.
    destruct (last_status _) as [prev|].
    + case_decide.
      * destruct Hcase as (-> & _ & ->). apply Hnone.
      * destruct Hcase as [_ Hcase]. case_decide.
        -- destruct Hcase as [-> ->]. apply Hnone.
        -- destruct Hcase as (-> & _ & _ & _ & ->).
           destruct (find_target_group _ _) as [g|]; [|by rewrite app_nil_r].
           destruct (truthy g); [|by rewrite app_nil_r].
           simpl. unfold notifications_of, transitions. simpl.
           rewrite filter_cons, decide_True by done. by rewrite filter_nil.
    + destruct Hcase as (-> & _ & _ & -> & _). apply Hnone.
  - unfold room_pending. rewrite process_result_other by done.
    destruct (find_target_group _ _) as [g|]; [|by rewrite app_nil_r].
    destruct (truthy g); [|by rewrite app_nil_r].
    assert (notifications_of rid g [(process_result w (Returned (Some res)) st).1]
            = []) as ->; [|by rewrite app_nil_r].
    unfold notifications_of, transitions.
    destruct ((process_result w (Returned (Some res)) st).1) as [ev|] eqn:Hev;
      [|done].
    simpl. rewrite filter_cons, decide_False; [done|].
    rewrite (event_room w res st ev Hev). congruence.
Qed.

Lemma room_pending_steps results st rid :
  room_pending rid (process_results w results st).2
  = room_pending rid st
    ++ match find_target_group rid (monitor_rooms st) with
       | Some g => if truthy g
                   then notifications_of rid g (process_results w results st).1 else []
       | None => []
       end.
Proof.
  revert st.
  induction results as [|r results IH]; intros st.
  - simpl. destruct (find_target_group _ _) as [g|]; [destruct (truthy g)|];
      by rewrite app_nil_r.
  - rewrite process_results_cons.
    destruct (raises w r st) eqn:Hraises; cbn [fst snd].
    + rewrite room_pending_step.
      destruct (process_result_log w r st) as (reqs & _ & _ & Hev).
      rewrite Hraises in Hev. destruct Hev as [-> _]. done.
    + rewrite IH, room_pending_step, process_result_rooms.
      destruct (find_target_group _ _) as [g|]; [destruct (truthy g)|];
        rewrite ?app_nil_r; [|done..].
      rewrite <- app_assoc. f_equal. symmetry. apply notifications_of_cons.
Qed.

(** The requests of the loop over the results of a cycle: one for each
    transition, and one more when the loop raised after asking for a
    name. *)
Lemma process_results_log results st :
  ∃ more,
    http_log (process_results w results st).2
    = http_log st ++ anchor_requests (process_results w results st).1 ++ more
    ∧ (more = []
       ∨ ∃ res, Returned (Some res) ∈ results ∧ refused w res
                ∧ more = [GetRoomInfo (res_room_id res)])
    ∧ (length (process_results w results st).1 ≤ length results)%nat
    ∧ (Forall (λ r, converts w (Sample r)) results →
       more = [] ∧ length (process_results w results st).1 = length results).
Proof.
  revert st.
  induction results as [|r results IH]; intros st.
  - exists []. simpl. rewrite app_nil_r. split_and!; [done | by left | done | done].
  - rewrite process_results_cons.
    destruct (process_result_log w r st) as (reqs & Hlog & _ & Hturn).
    destruct (raises w r st) eqn:Hraises; cbn [fst snd].
    + destruct Hturn as (_ & res & -> & Hr & Hreqs).
      exists reqs. rewrite Hlog. split_and!; [done | | simpl; lia |].
      * destruct Hreqs as [->| ->]; [by left|].
        right. exists res. split_and!; [by left|done..].
      * intros [Hacc _]%Forall_cons. by destruct Hacc.
    + destruct (IH (process_result w r st).2) as (more & Hmore & Hwhich & Hlen & Hall).
      exists more. rewrite Hmore, Hlog, Hturn.
      split_and!.
      * rewrite <- !app_assoc. f_equal. rewrite app_assoc. f_equal.
        symmetry. apply anchor_requests_cons.
      * destruct Hwhich as [->|(res & ? & ? & ->)]; [by left|].
        right. exists res. split_and!; [by right|done..].
      * simpl. lia.
      * intros [_ Hrest]%Forall_cons. destruct (Hall Hrest) as [-> Hl].
        split; [done|]. simpl. by rewrite Hl.
Qed.

(** Without refused samples the stored status follows the last sample. *)
Lemma stored_status_step r st rid :
  converts w (Sample r) →
  stored_status rid (process_result w r st).2
  = match latest_status rid [r] with
    | Some z => Some z
    | None => stored_status rid st
    end.
Proof.
  unfold latest_status. destruct r as [|[res|]]; [done| |done]. simpl.
  intros Hacc.
  destruct (decide (res_room_id res = rid)) as [Hr|Hr]; simpl.
  - rewrite <- Hr. rewrite stored_status_after. unfold track.
    destruct (stored_status _ st); [|done]. by rewrite decide_False.
  - apply stored_status_other. congruence.
Qed.

End Delivery.

(** X6. Every pending notification is addressed to a non-empty group that
    is the group of the first registry entry of some room: a group that
    appears only in later entries of its rooms, or in none, never has
    anything pending. *)
Theorem pending_only_for_first_groups
    (w : world) (room_configs : pystr) (acts : list action) (gid m : pystr) :
  let st := perform_all w acts (init room_configs) in
  m ∈ pending_for gid (room_status st) →
  gid ≠ []
  ∧ ∃ rc, rc ∈ parse_room_configs room_configs ∧ group_id rc = gid
          ∧ find_target_group (room_id rc) (parse_room_configs room_configs)
            = Some gid.
Proof.
  intros st Hm.
  assert (addressed_to_first_entry st) as Hinv.
  { apply addressed_perform_all. intros rid ri n. by simpl. }
  assert (NoDup (Dict.keys (room_status st))) as Hnd.
  { apply perform_all_nodup. simpl. constructor. }
  apply pending_for_elem in Hm as (rid & ri & n & Hri & Hn & <- & _).
  apply elem_of_get in Hri; [|done].
  destruct (Hinv rid ri n Hri Hn) as [Hfind Hne].
  unfold st in Hfind. rewrite perform_all_rooms in Hfind. simpl in Hfind.
  split; [done|].
  destruct (find_target_group_Some _ _ _ Hfind) as (rc & Hrc & Hrid & Hg).
  exists rc. split_and!; [done..|]. by rewrite Hrid.
Qed.

(** The message stored when room ["1"] of groups ["A"] and ["B"] goes
    live is pending for the non-empty group ["A"], the first of the room. *)
Lemma pending_only_for_first_groups_witness :
  py "A" ≠ []
  ∧ ∃ rc, rc ∈ parse_room_configs (py "1:A,1:B") ∧ group_id rc = py "A"
          ∧ find_target_group (room_id rc) (parse_room_configs (py "1:A,1:B"))
            = Some (py "A").
Proof.
  apply (pending_only_for_first_groups (Demo.goes_live 2) (py "1:A,1:B")
           [Cycle; Cycle] (py "A") (tr_message Scenario.room1_goes_live)).
  apply (bool_decide_unpack _). vm_compute. exact I.
Defined.

(** X7. A monitor cycle sends one status request per registry entry, in
    registry order, then one room-info request per transition, in the
    order of the transitions, and after them at most one more: the
    room-info request of the turn at which the loop raised, which is a
    turn on a refused sample.  It computes at most one outcome per entry.
    When no gathered sample is refused, there is no such last request and
    there is one outcome per entry. *)
Theorem cycle_requests (w : world) (st : plugin) :
  let fetched := gather_status w (monitor_rooms st) st in
  let cycle := monitor_cycle w st in
  let status_requests := (λ rc, GetLiveStatus (room_id rc)) <$> monitor_rooms st in
  ∃ more,
    http_log cycle.2
    = http_log st ++ status_requests ++ anchor_requests cycle.1 ++ more
    ∧ (more = []
       ∨ ∃ res, Returned (Some res) ∈ fetched.1 ∧ refused w res
                ∧ more = [GetRoomInfo (res_room_id res)])
    ∧ (length cycle.1 ≤ length (monitor_rooms st))%nat
    ∧ ((∀ res, Returned (Some res) ∈ fetched.1 → ¬ refused w res) →
       more = [] ∧ length cycle.1 = length (monitor_rooms st)).
Proof.
  intros fetched cycle status_requests. subst cycle. rewrite monitor_cycle_eq.
  fold fetched.
  destruct (process_results_log w fetched.1 fetched.2)
    as (more & Hlog & Hwhich & Hlen & Hall).
  assert (length fetched.1 = length (monitor_rooms st)) as Hfetched.
  { unfold fetched, gather_status. by rewrite mapM_length. }
  exists more. rewrite Hlog. unfold fetched at 1. rewrite gather_status_state.
  split_and!; [simpl; by rewrite <- app_assoc | done | lia |].
  intros Hacc. rewrite <- Hfetched. apply Hall.
  apply Forall_forall. intros [|[res|]] Hr; simpl; [done| |done]. by apply Hacc.
Qed.

(** The second cycle of room ["1"], which goes live then: a status
    request, then the request for the anchor's name, two requests after
    the one of the first cycle. *)
Lemma cycle_requests_witness :
  http_log (monitor_cycle (Demo.goes_live 1) (monitor_cycle (Demo.goes_live 1)
                                                (init (py "1:A"))).2).2
  = [GetLiveStatus (py "1"); GetLiveStatus (py "1"); GetRoomInfo (py "1")]
  ∧ length (monitor_cycle (Demo.goes_live 1)
              (monitor_cycle (Demo.goes_live 1) (init (py "1:A"))).2).1 = 1%nat.
Proof.
  destruct (cycle_requests (Demo.goes_live 1)
              (monitor_cycle (Demo.goes_live 1) (init (py "1:A"))).2)
    as (more & Hlog & _ & _ & Hall).
  destruct Hall as [-> Hlen].
  { intros res Hres [_ Hno].
    vm_compute in Hres. apply list_elem_of_singleton in Hres.
    injection Hres as ->. vm_compute in Hno. discriminate. }
  split; [|exact Hlen]. rewrite Hlog. vm_compute. reflexivity.
Defined.

(** X8. A configuration text without any [':'] gives an empty registry,
    and with an empty registry the monitor loop sends no request and
    changes nothing, for any number of cycles. *)
Theorem empty_registry_idle (w : world) (room_configs : pystr) (cycles : nat) :
  colon ∉ room_configs →
  parse_room_configs room_configs = []
  ∧ monitor_task w cycles (init room_configs) = ([], init room_configs).
Proof.
  intros Hcolon.
  assert (parse_room_configs room_configs = []) as Hparse.
  { unfold parse_room_configs. rewrite foldl_parse_step. simpl.
    assert (Forall (λ tok, colon ∉ tok) (split comma room_configs)) as Htoks.
    { rewrite <- (join_split comma room_configs) in Hcolon.
      induction (split comma room_configs) as [|tok toks IH]; [constructor|].
      destruct toks as [|tok' toks].
      - by repeat constructor.
      - rewrite join_cons_cons in Hcolon.
        apply not_elem_of_app in Hcolon as [? Hrest].
        apply not_elem_of_app in Hrest as [_ ?]. constructor; [done|]. by apply IH. }
    induction Htoks as [|tok toks Htok Htoks IH]; [done|].
    simpl. unfold token_config at 1. by rewrite decide_False. }
  split; [done|].
  assert (monitor_cycle w (init room_configs) = ([], init room_configs)) as Hcycle.
  { rewrite monitor_cycle_eq. unfold init. cbn [monitor_rooms].
    by rewrite Hparse. }
  induction cycles as [|n IH]; [done|].
  cbn [monitor_task]. unfold bind. by rewrite Hcycle, IH.
Qed.

(** The text ["no rooms here"] configures nothing; ten cycles later the
    plugin is as it was created. *)
Lemma empty_registry_idle_witness :
  monitor_task Demo.unreachable 10 (init (py "no rooms here"))
  = ([], init (py "no rooms here")).
Proof.
  apply (empty_registry_idle Demo.unreachable (py "no rooms here") 10).
  apply (bool_decide_unpack _). vm_compute. exact I.
Defined.

(** X9. Over a whole monitor cycle, the notifications of a room only
    grow: the cycle appends to the room's list one notification per
    transition of that room, in order, addressed to the group of the
    room's first registry entry, and nothing when that group is the empty
    string or the room has no entry. *)
Theorem cycle_appends_notifications (w : world) (st : plugin) (rid : pystr) :
  let cycle := monitor_cycle w st in
  room_pending rid cycle.2
  = room_pending rid st
    ++ match find_target_group rid (monitor_rooms st) with
       | Some g => if truthy g then notifications_of rid g cycle.1 else []
       | None => []
       end.
Proof.
  intros cycle. subst cycle. rewrite monitor_cycle_eq.
  rewrite room_pending_steps, gather_status_state. simpl.
  unfold room_pending. done.
Qed.

(** X10. After the loop has gone through a list of gathered results
    none of which is a refused sample, the status stored for a room is the
    raw status of the room's last sample in the list, and the one stored
    before when the list has no sample of the room. *)
Theorem stored_status_is_latest
    (w : world) (results : list (gathered (option status_result)))
    (st : plugin) (rid : pystr) :
  (∀ res, Returned (Some res) ∈ results → ¬ refused w res) →
  stored_status rid (process_results w results st).2
  = match latest_status rid results with
    | Some z => Some z
    | None => stored_status rid st
    end.
Proof.
  revert st.
  induction results as [|r results IH]; intros st Hacc; [done|].
  assert (converts w (Sample r)) as Hr.
  { destruct r as [|[res|]]; simpl; [done| |done]. apply Hacc. by left. }
  rewrite process_results_cons, (accepted_no_raise w r st Hr). cbn [fst snd].
  rewrite IH, stored_status_step by (try done; intros res ?; apply Hacc; by right).
  unfold latest_status. simpl.
  destruct r as [|[res|]]; simpl; [done| |done].
  case_decide; simpl; [|done].
  rewrite last_cons. by destruct (last _).
Qed.

(** Room ["1"], stored as offline, is sampled live and then offline in
    one list of results: it is stored as offline. *)
Lemma stored_status_is_latest_witness :
  stored_status (py "1")
    (process_results (Demo.goes_live 2)
       (as_results [Scenario.sample (py "1") 1; Scenario.sample (py "1") 0])
       Scenario.listed_twice).2
  = Some 0.
Proof.
  rewrite (stored_status_is_latest (Demo.goes_live 2)
             (as_results [Scenario.sample (py "1") 1; Scenario.sample (py "1") 0])
             Scenario.listed_twice (py "1")).
  - vm_compute. reflexivity.
  - intros res Hres [_ Hno].
    apply elem_of_cons in Hres as [Hres|Hres];
      [|apply list_elem_of_singleton in Hres];
      injection Hres as ->; vm_compute in Hno; discriminate.
Defined.

(** X11. A notification stored by the loop is handed out by the next
    message of its group: when a sample computes a transition and the
    first registry entry of the room names a non-empty group, the replies
    to a message of that group sent right after contain the transition's
    message, whatever the text. *)
Theorem transition_is_delivered
    (w : world) (res : status_result) (st : plugin) (ev : transition)
    (gid text : pystr) :
  let st' := (process_result w (Returned (Some res)) st).2 in
  (process_result w (Returned (Some res)) st).1 = Some ev →
  find_target_group (res_room_id res) (monitor_rooms st) = Some gid →
  gid ≠ [] →
  tr_message ev ∈ (on_group_message w (GroupMessage gid text) st').1.
Proof.
  intros st' Hev Hfind Hgid.
  assert (tr_message ev ∈ pending_for gid (room_status st')) as Hpending.
  { pose proof (room_pending_step w (Returned (Some res)) st (res_room_id res)) as Hp.
    fold st' in Hp. rewrite Hev, Hfind in Hp.
    rewrite (proj2 (truthy_nonempty gid) Hgid) in Hp.
    unfold notifications_of, transitions in Hp. simpl in Hp.
    rewrite filter_cons, decide_True in Hp by (by apply (event_room w res st)).
    rewrite filter_nil in Hp. simpl in Hp.
    unfold room_pending in Hp.
    destruct (Dict.get (res_room_id res) (room_status st')) as [ri|] eqn:Hri.
    - apply (elem_pending_for gid _ (res_room_id res) ri
               (Notification (tr_message ev) gid)); [done| |done].
      simpl in Hp. rewrite Hp. apply elem_of_app. right. by left.
    - simpl in Hp. by destruct (default [] _). }
  rewrite on_group_message_eq. simpl.
  case_decide; simpl; [apply elem_of_app; by left | done].
Qed.

(** Room ["1"] goes live; group ["A"], the first of the room, says
    ["hello"] and gets the message. *)
Lemma transition_is_delivered_witness :
  tr_message Scenario.room1_goes_live
  ∈ (on_group_message (Demo.goes_live 2) (GroupMessage (py "A") (py "hello"))
       (process_result (Demo.goes_live 2)
          (Returned (Some (Scenario.sample (py "1") 1))) Scenario.listed_twice).2).1.
Proof.
  apply (transition_is_delivered (Demo.goes_live 2) (Scenario.sample (py "1") 1)
           Scenario.listed_twice Scenario.room1_goes_live (py "A") (py "hello")).
  - vm_compute. reflexivity.
  - vm_compute. reflexivity.
  - discriminate.
Defined.

(** ** The handler and repeated samples *)

Section HandlerMore.

Context (w : world).
Implicit Types (st : plugin) (res : status_result) (rid gid : pystr).

Lemma stored_status_drained gid rid rs :
  (Dict.get rid (drained gid rs) ≫= last_status) = (Dict.get rid rs ≫= last_status)
  ∧ (Dict.get rid (drained gid rs) ≫= live_start_time)
    = (Dict.get rid rs ≫= live_start_time)
  ∧ (Dict.get rid (drained gid rs) ≫= last_check_time)
    = (Dict.get rid rs ≫= last_check_time).
Proof.
  rewrite get_drained. destruct (Dict.get rid rs) as [ri|]; simpl; [|done].
  by destruct (drained_info_fields gid ri) as (-> & -> & ->).
Qed.

Lemma event_direction res st ev :
  (process_result w (Returned (Some res)) st).1 = Some ev →
  tr_room_id ev = res_room_id res
  ∧ became_live ev = bool_decide (live_status (res_data res) = 1).
Proof.
  destruct (process_result_sample w res st)
    as (e & st' & new & -> & _ & _ & _ & _ & Hcase).
  simpl. intros ->.
  destruct (last_status _) as [prev|].
  - case_decide; [by destruct Hcase|]. destruct Hcase as [_ Hcase].
    case_decide; [by destruct Hcase|]. by destruct Hcase as [[= ->] _].
  - by destruct Hcase.
Qed.

(** A sample with the stored status, in full. *)
Lemma process_result_same_status res st :
  stored_status (res_room_id res) st = Some (live_status (res_data res)) →
  process_result w (Returned (Some res)) st
  = (None,
     Plugin (monitor_rooms st)
       (Dict.update (res_room_id res)
          (set_last_check_time (Some (res_timestamp res))) (room_status st))
       (anchor_names st) (http_log st)).
Proof.
  unfold stored_status. intros Hst.
  destruct (Dict.get (res_room_id res) (room_status st)) as [old|] eqn:Hget;
    [|done].
  simpl in Hst. rewrite process_result_eq. unfold loop_body. unfold_MX.
  rewrite Hget. simpl. rewrite Hget. simpl. rewrite Hst.
  destruct (decide (live_status (res_data res) ≠ live_status (res_data res)));
    done.
Qed.

End HandlerMore.

(** X13. An inbound message never touches what the monitor knows: the
    registry, the name cache and, for every room, the stored status, start
    time and last check time are as before.  After it nothing is pending
    for the sending group, the other groups keep what they had pending,
    and a second message of the group right after, if it is not the
    command, gets no reply. *)
Theorem message_keeps_monitor_state
    (w : world) (event : group_message) (st : plugin) (text : pystr) :
  let gid := ev_group_id event in
  let st' := (on_group_message w event st).2 in
  monitor_rooms st' = monitor_rooms st
  ∧ anchor_names st' = anchor_names st
  ∧ (∀ rid, stored_status rid st' = stored_status rid st
            ∧ (Dict.get rid (room_status st') ≫= live_start_time)
              = (Dict.get rid (room_status st) ≫= live_start_time)
            ∧ (Dict.get rid (room_status st') ≫= last_check_time)
              = (Dict.get rid (room_status st) ≫= last_check_time))
  ∧ pending_for gid (room_status st') = []
  ∧ (∀ g, g ≠ gid →
       pending_for g (room_status st') = pending_for g (room_status st))
  ∧ (lower w (strip text) ≠ py "liveinfo" →
     (on_group_message w (GroupMessage gid text) st').1 = []).
Proof.
  intros gid st'.
  assert (room_status st' = drained gid (room_status st)) as Hrs.
  { subst st'. by rewrite on_group_message_state. }
  assert (pending_for gid (room_status st') = []) as Hnone.
  { rewrite Hrs, pending_for_drained. by rewrite decide_True. }
  split_and!.
  - subst st'. by rewrite on_group_message_state.
  - subst st'. by rewrite on_group_message_state.
  - intros rid. unfold stored_status. rewrite Hrs.
    apply stored_status_drained.
  - done.
  - intros g Hg. rewrite Hrs, pending_for_drained. by rewrite decide_False.
  - intros Hother. rewrite on_group_message_eq. simpl.
    by rewrite decide_False.
Qed.

(** Group ["A"] has the message of room ["1"] pending; it says
    ["hello"] twice: the second time there is no reply, and group ["B"]
    still has nothing more or less than before. *)
Lemma message_keeps_monitor_state_witness :
  (on_group_message (Demo.goes_live 2) (GroupMessage (py "A") (py "hello"))
     (on_group_message (Demo.goes_live 2) (GroupMessage (py "A") (py "hello"))
        (monitor_cycle (Demo.goes_live 2) Scenario.listed_twice).2).2).1 = []
  ∧ pending_for (py "B")
      (room_status
         (on_group_message (Demo.goes_live 2) (GroupMessage (py "A") (py "hello"))
            (monitor_cycle (Demo.goes_live 2) Scenario.listed_twice).2).2)
    = pending_for (py "B")
        (room_status (monitor_cycle (Demo.goes_live 2) Scenario.listed_twice).2).
Proof.
  destruct (message_keeps_monitor_state (Demo.goes_live 2)
              (GroupMessage (py "A") (py "hello"))
              (monitor_cycle (Demo.goes_live 2) Scenario.listed_twice).2
              (py "hello")) as (_ & _ & _ & _ & Hother & Hagain).
  split.
  - apply Hagain. apply (bool_decide_unpack _). vm_compute. exact I.
  - apply Hother. apply (bool_decide_unpack _). vm_compute. exact I.
Defined.

(** X14. A sample whose status is the stored one computes no transition,
    sends no request and changes nothing but the last check time of its
    room; and a result handed to the loop a second time, right after a
    turn on it that did not raise, changes nothing. *)
Theorem repeated_sample_is_idle (w : world) (res : status_result) (st : plugin) :
  let st1 := (process_result w (Returned (Some res)) st).2 in
  (stored_status (res_room_id res) st = Some (live_status (res_data res)) →
   process_result w (Returned (Some res)) st
   = (None,
      Plugin (monitor_rooms st)
        (Dict.update (res_room_id res)
           (set_last_check_time (Some (res_timestamp res))) (room_status st))
        (anchor_names st) (http_log st)))
  ∧ (raises w (Returned (Some res)) st = false →
     process_result w (Returned (Some res)) st1 = (None, st1)).
Proof.
  intros st1. split; [apply process_result_same_status|].
  intros Hraises.
  destruct (process_result_sample w res st)
    as (ev & st' & new & Hrun & _ & Hget & _ & Hr & Hcase).
  rewrite Hraises in Hr. symmetry in Hr. apply bool_decide_eq_false_1 in Hr.
  subst st1. rewrite Hrun in *. cbn [snd].
  assert (last_status new = Some (live_status (res_data res))
          ∧ last_check_time new = Some (res_timestamp res)) as [Hlast Htime].
  { destruct (last_status _) as [prev|] eqn:Hprev.
    - destruct (decide (live_status (res_data res) = prev)) as [Heq|Hne].
      + destruct Hcase as (_ & _ & ->). simpl. by rewrite Hprev, Heq.
      + destruct Hcase as [_ Hcase].
        destruct (decide (refused w res)) as [Hrf|Hrf].
        * destruct Hr. split; [done|congruence].
        * by destruct Hcase as (_ & -> & -> & _).
    - destruct Hcase as (_ & _ & -> & _ & Hcase).
      destruct (decide (refused w res)) as [Hrf|Hrf].
      + destruct Hr. by split.
      + by destruct Hcase as [_ ->]. }
  rewrite process_result_same_status
    by (unfold stored_status; by rewrite Hget).
  f_equal. rewrite (update_same _ _ _ new Hget).
  - by destruct st'.
  - destruct new. simpl in *. by subst.
Qed.

(** Room ["1"], stored offline, is found offline again, twice. *)
Lemma repeated_sample_is_idle_witness :
  (process_result (Demo.goes_live 2) (Returned (Some (Scenario.sample (py "1") 0)))
     Scenario.listed_twice).1 = None
  ∧ (process_result (Demo.goes_live 2) (Returned (Some (Scenario.sample (py "1") 0)))
       (process_result (Demo.goes_live 2)
          (Returned (Some (Scenario.sample (py "1") 0))) Scenario.listed_twice).2).1
    = None.
Proof.
  destruct (repeated_sample_is_idle (Demo.goes_live 2)
              (Scenario.sample (py "1") 0) Scenario.listed_twice) as [H1 H2].
  split.
  - rewrite H1; [reflexivity|]. vm_compute. reflexivity.
  - rewrite H2; [reflexivity|]. vm_compute. reflexivity.
Defined.

(** ** Directions of the transitions, the name cache *)

Section Directions.

Context (w : world).
Implicit Types (st : plugin) (res : status_result) (rid : pystr).

Lemma alternates_cons b (l : list bool) :
  alternates l → (∀ b', head l = Some b' → b ≠ b') → alternates (b :: l).
Proof. destruct l as [|b' l]; [done|]. intros Hl Hb. split; [by apply Hb|done]. Qed.

Lemma directions_cons rid ev evs :
  directions rid (ev :: evs)
  = match ev with
    | Some e => if decide (tr_room_id e = rid)
                then became_live e :: directions rid evs else directions rid evs
    | None => directions rid evs
    end.
Proof.
  unfold directions, transitions. destruct ev as [e|]; simpl; [|done].
  rewrite filter_cons. by case_decide.
Qed.

Lemma directions_from samples st rid :
  Forall binary samples →
  (∀ z, stored_status rid st = Some z → z = 0 ∨ z = 1) →
  let l := directions rid (apply_samples w samples st).1 in
  alternates l
  ∧ ∀ z b, stored_status rid st = Some z → head l = Some b →
           b = negb (bool_decide (z = 1)).
Proof.
  revert st.
  induction samples as [|s samples IH]; intros st Hall Hst; [done|].
  inversion_clear Hall as [|? ? Hs Hrest].
  rewrite apply_samples_cons. cbn [fst snd]. rewrite directions_cons.
  set (st1 := (process_result w (Returned (Some s)) st).2).
  destruct (decide (res_room_id s = rid)) as [Hroom|Hroom].
  - assert (stored_status rid st1 = track w (stored_status rid st) s) as Hst1
      by (subst rid; apply stored_status_after).
    destruct (IH st1 Hrest) as [Halt Hhead].
    { intros z. rewrite Hst1. unfold track.
      destruct (stored_status rid st) as [prev|] eqn:Hprev.
      - case_decide; intros [= <-]; [by apply Hst | done].
      - by intros [= <-]. }
    destruct ((process_result w (Returned (Some s)) st).1) as [e|] eqn:Hev.
    + destruct (event_direction w s st e Hev) as [He Hdir].
      rewrite decide_True by congruence.
      assert (is_Some (process_result w (Returned (Some s)) st).1) as Hsome
        by (by rewrite Hev).
      apply transition_iff_raw_differs in Hsome as (prev & Hprev & Hne & Hacc).
      rewrite Hroom in Hprev. rewrite Hprev in Hst1. unfold track in Hst1.
      rewrite decide_False in Hst1 by done. split.
      * apply alternates_cons; [done|].
        intros b' Hb'. rewrite (Hhead _ b' Hst1 Hb'), Hdir.
        by destruct (bool_decide _).
      * intros z b Hz [= <-]. rewrite Hdir.
        assert (z = prev) as -> by congruence.
        destruct (Hst _ Hprev) as [->| ->], Hs as [Hc|Hc]; rewrite Hc in *;
          done.
    + split; [done|]. intros z b Hz Hb.
      assert (stored_status rid st1 = Some z) as Hsame.
      { rewrite Hst1, Hz. unfold track. case_decide as Hr; [done|].
        destruct (decide (live_status (res_data s) = z)) as [->|Hne]; [done|].
        assert (is_Some (process_result w (Returned (Some s)) st).1) as [? ?];
          [|congruence].
        apply transition_iff_raw_differs. exists z. by rewrite Hroom. }
      by apply (Hhead _ b Hsame) in Hb.
  - assert (stored_status rid st1 = stored_status rid st) as Hst1
      by (apply stored_status_other; congruence).
    destruct (IH st1 Hrest) as [Halt Hhead].
    { intros z. rewrite Hst1. apply Hst. }
    assert (match (process_result w (Returned (Some s)) st).1 with
            | Some e =>
                if decide (tr_room_id e = rid)
                then became_live e :: directions rid (apply_samples w samples st1).1
                else directions rid (apply_samples w samples st1).1
            | None => directions rid (apply_samples w samples st1).1
            end
            = directions rid (apply_samples w samples st1).1) as ->.
    { destruct ((process_result w (Returned (Some s)) st).1) as [e|] eqn:Hev;
        [|done].
      destruct (event_direction w s st e Hev) as [He _].
      rewrite decide_False; [done|]. congruence. }
    split; [done|]. intros z b Hz. apply Hhead. by rewrite Hst1.
Qed.

(** The loop of one cycle runs the turns of a prefix of its results, and
    computes the transitions that these turns compute one by one. *)
Lemma process_results_prefix samples st :
  ∃ n, (process_results w (as_results samples) st).2
       = (apply_samples w (take n samples) st).2
       ∧ transitions (process_results w (as_results samples) st).1
         = transitions (apply_samples w (take n samples) st).1.
Proof.
  revert st. induction samples as [|s samples IH]; intros st.
  - by exists 0%nat.
  - unfold as_results. rewrite fmap_cons. fold (as_results samples).
    rewrite process_results_cons.
    destruct (raises w (Returned (Some s)) st) eqn:Hraises.
    + exists 1%nat. cbn [take]. rewrite apply_samples_cons. cbn [fst snd].
      destruct (process_result_log w (Returned (Some s)) st) as (reqs & _ & _ & Hev).
      rewrite Hraises in Hev. destruct Hev as [-> _]. done.
    + destruct (IH (process_result w (Returned (Some s)) st).2) as (n & Hst & Hev).
      exists (S n). cbn [take]. rewrite apply_samples_cons. cbn [fst snd].
      split; [done|]. unfold transitions in *.
      destruct ((process_result w (Returned (Some s)) st).1); simpl; [f_equal|];
        exact Hev.
Qed.

Lemma cache_sample r st :
  cache_was_fetched st → cache_was_fetched (process_result w r st).2.
Proof.
  intros Hst rid name Hname.
  destruct (process_result_log w r st) as (reqs & -> & Hnames & _).
  apply elem_of_app.
  destruct (Hnames rid name Hname) as [?|?]; [left; by eapply Hst | by right].
Qed.

Lemma cache_logged reqs st :
  cache_was_fetched st → cache_was_fetched (logged reqs st).
Proof.
  intros Hst rid name Hname. simpl in *. apply elem_of_app. left. by eapply Hst.
Qed.

Lemma cache_perform a st :
  cache_was_fetched st → cache_was_fetched (perform w a st).
Proof.
  intros Hst. destruct a as [|r|event]; simpl.
  - rewrite monitor_cycle_eq.
    apply process_results_invariant; [apply cache_sample|].
    rewrite gather_status_state. by apply cache_logged.
  - by apply cache_sample.
  - rewrite on_group_message_state. apply cache_logged.
    intros rid name Hname. simpl in *. by eapply Hst.
Qed.

End Directions.

(** X15. With raw statuses 0 and 1 only, the transitions of a room
    alternate: whatever sequence of such samples is applied turn by turn
    from the fresh plugin, refused ones included, the loop never computes
    two transitions to live, or two transitions to offline, in a row for
    the same room; and the same holds of the transitions computed by the
    loop of one cycle over such samples, which stops at the first turn
    that raises. *)
Theorem transitions_alternate
    (w : world) (room_configs : pystr) (samples : list status_result)
    (rid : pystr) :
  Forall binary samples →
  alternates (directions rid (apply_samples w samples (init room_configs)).1)
  ∧ alternates
      (directions rid
         (process_results w (as_results samples) (init room_configs)).1).
Proof.
  intros Hsamples.
  assert (∀ l, Forall binary l →
               alternates (directions rid (apply_samples w l (init room_configs)).1))
    as Hturns.
  { intros l Hl. apply (directions_from w l (init room_configs) rid Hl).
    intros z. by rewrite stored_status_init. }
  split; [by apply Hturns|].
  destruct (process_results_prefix w samples (init room_configs)) as (n & _ & Hev).
  unfold directions. rewrite Hev. apply Hturns.
  by apply Forall_take.
Qed.

(** Room ["123"] polled offline, live, offline: a transition to live, then
    one to offline. *)
Lemma transitions_alternate_witness :
  directions (py "123")
    (apply_samples (Demo.goes_live 0) Scenario.polls (init (py "123:G"))).1
  = [true; false]
  ∧ alternates
      (directions (py "123")
         (apply_samples (Demo.goes_live 0) Scenario.polls (init (py "123:G"))).1).
Proof.
  split; [vm_compute; reflexivity|].
  apply (transitions_alternate (Demo.goes_live 0) (py "123:G") Scenario.polls
           (py "123")).
  unfold Scenario.polls.
  apply Forall_cons; split; [left; reflexivity|].
  apply Forall_cons; split; [right; reflexivity|].
  apply Forall_cons; split; [left; reflexivity|]. constructor.
Defined.

(** X16. A name is in the cache only for a room for which a room-info
    request was sent: whatever the plugin has gone through, a room without
    such a request has no cached name, so its reports show the fallback
    name. *)
Theorem cached_names_were_fetched
    (w : world) (room_configs : pystr) (acts : list action)
    (rid name : pystr) :
  let st := perform_all w acts (init room_configs) in
  anchor_names st !! rid = Some name → GetRoomInfo rid ∈ http_log st.
Proof.
  intros st. subst st.
  assert (∀ s, cache_was_fetched s → cache_was_fetched (perform_all w acts s)) as H.
  { unfold perform_all. induction acts as [|a acts IH]; intros s Hs; [done|].
    simpl. by apply IH, cache_perform. }
  apply (H (init room_configs)).
  intros r n. simpl. by rewrite lookup_empty.
Qed.

(** After the cycle in which room ["1"] goes live its anchor is cached,
    and the request for it is in the log. *)
Lemma cached_names_were_fetched_witness :
  GetRoomInfo (py "1")
  ∈ http_log (perform_all (Demo.goes_live 1) [Cycle; Cycle] (init (py "1:A"))).
Proof.
  apply (cached_names_were_fetched (Demo.goes_live 1) (py "1:A") [Cycle; Cycle]
           (py "1") (py "up")).
  vm_compute. reflexivity.
Defined.

Lemma report_parts (a name b rid c label body tail : pystr) :
  ((a ++ name ++ 10%N :: b ++ rid ++ 10%N :: c ++ label ++ nl) ++ body) ++ tail
  = a ++ name ++ 10%N :: b ++ rid ++ 10%N :: c ++ label ++ 10%N :: body ++ tail.
Proof. repeat (rewrite <- app_assoc; simpl). done. Qed.

Lemma report_parts0 (a name b rid c label tail : pystr) :
  (a ++ name ++ 10%N :: b ++ rid ++ 10%N :: c ++ label ++ nl) ++ tail
  = a ++ name ++ 10%N :: b ++ rid ++ 10%N :: c ++ label ++ 10%N :: [] ++ tail.
Proof. repeat (rewrite <- app_assoc; simpl). done. Qed.

Lemma report_parts2 (a name b rid c label body1 body2 tail : pystr) :
  (((a ++ name ++ 10%N :: b ++ rid ++ 10%N :: c ++ label ++ nl) ++ body1) ++ body2)
    ++ tail
  = a ++ name ++ 10%N :: b ++ rid ++ 10%N :: c ++ label
      ++ 10%N :: (body1 ++ body2) ++ tail.
Proof. repeat (rewrite <- app_assoc; simpl). done. Qed.

(** X17. A report asks the live-status endpoint once and changes nothing
    else: no room-info request, no change of the cache or of the rooms.
    When the fetch succeeds the report names the anchor by the cached name,
    or by the fallback ["主播" + room_id] when none is cached, gives the
    room id and the label of the fresh status, and ends with the room
    link. *)
Theorem get_live_info_report (w : world) (rid : pystr) (st : plugin) :
  (get_live_info w rid st).2 = logged [GetLiveStatus rid] st
  ∧ ∀ res, (check_live_status w rid st).1 = Some res →
      ∃ middle,
        (get_live_info w rid st).1
        = py "主播: " ++ default (py "主播" ++ rid) (anchor_names st !! rid) ++ nl
          ++ py "直播间ID: " ++ rid ++ nl
          ++ py "状态: "
          ++ (if decide (live_status (res_data res) = 1)
              then py "直播中" else py "未开播") ++ nl
          ++ middle ++ py "直播间链接: 链接1" ++ rid.
Proof.
  split; [apply get_live_info_state|].
  intros res Hres. unfold get_live_info. unfold bind at 1.
  pose proof (check_live_status_state w rid st) as Hst.
  destruct (check_live_status w rid st) as [r st1]. simpl in Hres, Hst.
  subst r st1. unfold_M.
  destruct (decide (live_status (res_data res) = 1)).
  - destruct (live_start_time _); [destruct (hms w _) as [[hours minutes] seconds]|];
      destruct (last_check_time _); cbn [fst];
      eexists;
      first [apply report_parts2 | apply report_parts | apply report_parts0].
  - destruct (last_check_time _); cbn [fst]; eexists;
      first [apply report_parts | apply report_parts0].
Qed.

(** Room ["1"], never seen by the monitor, is live: the report names the
    anchor ["主播1"]. *)
Lemma get_live_info_report_witness :
  ∃ middle,
    (get_live_info (Demo.goes_live 0) (py "1") (init (py "1:A"))).1
    = py "主播: " ++ (py "主播" ++ py "1") ++ nl
      ++ py "直播间ID: " ++ py "1" ++ nl
      ++ py "状态: " ++ py "直播中" ++ nl
      ++ middle ++ py "直播间链接: 链接1" ++ py "1".
Proof.
  destruct (get_live_info_report (Demo.goes_live 0) (py "1") (init (py "1:A")))
    as [_ H].
  apply (H (StatusResult (py "1") (StatusData 1 1700000000) 1700000100000001)).
  vm_compute. reflexivity.
Defined.

(** ** The start time and the stored status *)

Section StartTime.

Context (w : world).
Implicit Types (st : plugin) (res : status_result) (rid : pystr).

Lemma only_live_perform_all acts st :
  start_times_only_live st → start_times_only_live (perform_all w acts st).
Proof.
  unfold perform_all. revert st.
  induction acts as [|a acts IH]; intros st Hst; [done|].
  simpl. by apply IH, only_live_perform.
Qed.

(** A sample that is not live, for a room stored as live: the turn runs
    to its end, stores the new status and clears the start time. *)
Lemma live_room_goes_offline res st :
  stored_status (res_room_id res) st = Some 1 →
  live_status (res_data res) ≠ 1 →
  raises w (Returned (Some res)) st = false
  ∧ ∃ ri, Dict.get (res_room_id res)
            (room_status (process_result w (Returned (Some res)) st).2) = Some ri
          ∧ last_status ri = Some (live_status (res_data res))
          ∧ live_start_time ri = None.
Proof.
  intros Hlive Hoff.
  destruct (process_result_sample w res st)
    as (ev & st' & new & -> & _ & Hget & _ & -> & Hcase).
  assert (¬ refused w res) as Hacc by (by intros [? _]).
  split; [apply bool_decide_eq_false_2; by intros [? _]|].
  exists new. cbn [snd]. split; [done|].
  rewrite stored_status_old in Hlive. rewrite Hlive in Hcase.
  rewrite decide_False in Hcase by done.
  destruct Hcase as [_ Hcase]. rewrite decide_False in Hcase by done.
  destruct Hcase as (_ & -> & _ & -> & _). by rewrite decide_False.
Qed.

End StartTime.

(** X18. Whatever cycles, loop turns and group messages the plugin has
    gone through since it was created, an entry with a start time is
    stored as live.  The converse holds as long as no live sample had a
    start time that [datetime.fromtimestamp] refuses: when the endpoint
    never gives such a start time and no loop turn was run on a refused
    sample, every entry has a start time if and only if it is stored as
    live.  And a room stored as live that receives a sample that is not
    live has, after that same turn, the new status and no start time. *)
Theorem start_time_only_when_live
    (w : world) (room_configs : pystr) (acts : list action) :
  let st := perform_all w acts (init room_configs) in
  (∀ rid ri, Dict.get rid (room_status st) = Some ri →
     is_Some (live_start_time ri) → last_status ri = Some 1)
  ∧ (start_times_convert w → Forall (converts w) acts →
     ∀ rid ri, Dict.get rid (room_status st) = Some ri →
       (is_Some (live_start_time ri) ↔ last_status ri = Some 1))
  ∧ (∀ res, stored_status (res_room_id res) st = Some 1 →
       live_status (res_data res) ≠ 1 →
       ∃ ri, Dict.get (res_room_id res)
               (room_status (perform w (Sample (Returned (Some res))) st)) = Some ri
             ∧ last_status ri = Some (live_status (res_data res))
             ∧ live_start_time ri = None).
Proof.
  intros st. split_and!.
  - apply (only_live_perform_all w acts (init room_configs)).
    intros rid ri. by simpl.
  - intros Hw Hacts.
    apply (consistent_perform_all w acts (init room_configs) Hw Hacts).
    intros rid ri. by simpl.
  - intros res Hlive Hoff. unfold perform.
    by destruct (live_room_goes_offline w res st Hlive Hoff) as [_ ?].
Qed.

(** Room ["1"] has gone live in the second cycle: it has a start time;
    a sample with status 0 then clears it. *)
Lemma start_time_only_when_live_witness :
  (∃ ri, Dict.get (py "1") (room_status Scenario.live_room) = Some ri
         ∧ (is_Some (live_start_time ri) ↔ last_status ri = Some 1))
  ∧ (∃ ri, Dict.get (py "1")
             (room_status
                (perform (Demo.goes_live 1)
                   (Sample (Returned (Some (Scenario.sample (py "1") 0))))
                   Scenario.live_room))
           = Some ri
           ∧ last_status ri = Some 0 ∧ live_start_time ri = None).
Proof.
  destruct (start_time_only_when_live (Demo.goes_live 1) (py "1:A") [Cycle; Cycle])
    as (_ & Hinv & Hclear).
  split.
  - eexists. split; [vm_compute; reflexivity|].
    apply (Hinv) with (rid := py "1");
      [| repeat constructor | vm_compute; reflexivity].
    intros n rid d Hd Hlive. simpl in Hd. injection Hd as <-.
    vm_compute. by eexists.
  - apply (Hclear (Scenario.sample (py "1") 0)); [vm_compute; reflexivity|].
    simpl. lia.
Defined.
